(** * go-ipfs [core/commands]: the [cid] and [urlstore add] commands

    A shallow embedding of [core/commands/cid.go] (the commands
    [cid format], [cid base32], [cid bases], [cid codecs], [cid hashes]) and of
    [core/commands/urlstore.go] ([urlstore add]), with the properties their
    specification states about them.

    The commands sit on top of libraries that are not part of this package
    (go-cid, go-cidutil, go-multibase, go-multihash, go-verifcid, go-unixfs,
    net/http, sort, unicode).  Their functions are the [Variable]s of the
    sections below: every result holds whatever these functions compute,
    unless it says otherwise. *)

From stdpp Require Import base option list gmap strings sorting.
From Stdlib Require Import ZArith Strings.Byte Strings.Ascii Lia.

Local Open Scope Z_scope.

(** ** Go values *)

(** An [error] interface value, as far as this package looks at one: whether
    its dynamic type is [cidutil.FormatStringError] (the type assertion in
    [emitCids]) and what its method [Error()] returns. *)
Record error : Type := mkError {
  isFormatStringError : bool;
  Error : string
}.

(** [fmt.Errorf] with the message already formatted: a plain error value. *)
Definition Errorf (msg : string) : error :=
  {| isFormatStringError := false; Error := msg |}.

(** A Go result [(x, err)] of which the caller reads [x] only when [err] is
    [nil]. *)
Inductive result (A : Type) : Type :=
| Ok (x : A)
| Err (e : error).
Arguments Ok {A} x.
Arguments Err {A} e.

(** The conversion [int(x)] of an integer [x] on a 64-bit platform: the value
    modulo 2^64, read as a signed number. *)
Definition int (x : Z) : Z := (x + 2^63) mod 2^64 - 2^63.

(** The conversion [rune(x)]: [rune] is [int32]. *)
Definition rune (x : Z) : Z := (x + 2^31) mod 2^32 - 2^31.

(** [strings.IndexByte s c]: the index of the first byte [c] of [s], or -1. *)
Fixpoint IndexByte_from (i : Z) (s : string) (c : ascii) : Z :=
  match s with
  | EmptyString => -1
  | String a s' => if Ascii.eqb a c then i else IndexByte_from (i + 1) s' c
  end.

Definition IndexByte (s : string) (c : ascii) : Z := IndexByte_from 0 s c.

(** The value an option of a request holds ([req.Options] is a
    [map[string]interface{}]). *)
Inductive OptionValue : Type :=
| OptString (s : string)
| OptBool (b : bool).

(** [cmds.Request], the two fields the commands read. *)
Record Request : Type := mkRequest {
  Arguments_ : list string;
  Options : gmap string OptionValue
}.

(** [s, _ := req.Options[name].(string)]: the empty string when the option is
    absent or is not a string. *)
Definition optString (req : Request) (name : string) : string :=
  match Options req !! name with
  | Some (OptString s) => s
  | _ => ""
  end.

(** [b, _ := req.Options[name].(bool)]: [false] when the option is absent or
    is not a boolean. *)
Definition optBool (req : Request) (name : string) : bool :=
  match Options req !! name with
  | Some (OptBool b) => b
  | _ => false
  end.

(** ** Content identifiers *)

(** A multihash: the tag of the hash function and the digest it produced. *)
Record Multihash : Type := mkMultihash {
  MhType : Z;
  Digest : list byte
}.

(** Modelled from the spec: the type [cid.Cid] of go-cid with its constructors
    [NewCidV0], [NewCidV1] and its methods [Version], [Type], [Hash], none of
    which is among the sources.  The spec's Identifier has a version in
    {V0, V1}, a codec that is meaningful only for V1 (a V0 identifier denotes
    the one legacy codec) and a digest; the textual base is presentation and
    not part of the value. *)
Inductive Cid : Type :=
| NewCidV0 (mhash : Multihash)
| NewCidV1 (codecType : Z) (mhash : Multihash).

(** Modelled from the spec: the legacy codec ([cid.DagProtobuf], the
    multicodec number of dag-pb).  No result below depends on the number. *)
Definition DagProtobuf : Z := 112.

(** Modelled from the spec: [mh.SHA2_256] and the multibase markers
    [mbase.Base32] ('b') and [mbase.Base58BTC] ('z'). *)
Definition SHA2_256 : Z := 18.
Definition Base32 : Z := 98.
Definition Base58BTC : Z := 122.

Definition Version (c : Cid) : Z :=
  match c with
  | NewCidV0 _ => 0
  | NewCidV1 _ _ => 1
  end.

(** [c.Type()]: the codec, which is the legacy one for a V0 identifier. *)
Definition Type_ (c : Cid) : Z :=
  match c with
  | NewCidV0 _ => DagProtobuf
  | NewCidV1 codecType _ => codecType
  end.

Definition Hash (c : Cid) : Multihash :=
  match c with
  | NewCidV0 mhash => mhash
  | NewCidV1 _ mhash => mhash
  end.

(** ** Version conversion ([toCidV0], [toCidV1]) *)

Definition toCidV0 (c : Cid) : result Cid :=
  if bool_decide (Type_ c ≠ DagProtobuf)
  then Err (Errorf "can't convert non-protobuf nodes to cidv0")
  else Ok (NewCidV0 (Hash c)).

Definition toCidV1 (c : Cid) : result Cid :=
  Ok (NewCidV1 (Type_ c) (Hash c)).

(** ** The batch commands ([cid format], [cid base32]) *)

Record CidFormatRes : Type := mkCidFormatRes {
  CidStr : string;    (* Original Cid String passed in *)
  Formatted : string; (* Formated Result *)
  ErrorMsg : string   (* Error *)
}.

(** The response emitter, as the values emitted on it so far, oldest first:
    [resp.Emit(res)] adds [res] at the end. *)
Definition ResponseEmitter : Type := list CidFormatRes.

Definition Emit (resp : ResponseEmitter) (res : CidFormatRes) : ResponseEmitter :=
  resp ++ [res].

(** [newBase] is a [mbase.Encoding], an integer; -1 stands for the base of
    the input text.  [verConv] is [nil] or a conversion. *)
Record cidFormatOpts : Type := mkCidFormatOpts {
  fmtStr : string;
  newBase : Z;
  verConv : option (Cid → result Cid)
}.

Section Batch.

(** [cid.Decode]. *)
Variable Decode : string → result Cid.
(** [cid.ExtractEncoding]: an encoding and an error, of which [emitCids]
    reads the encoding only. *)
Variable ExtractEncoding : string → Z * option error.
(** [cidutil.Format fmtStr base c]: a string and an error, both read by
    [emitCids]. *)
Variable Format : string → Z → Cid → string * option error.
(** [mbase.EncoderByName name], followed by [Encoding()] on the encoder. *)
Variable EncoderByName : string → result Z.

(** The closure [emit] of [emitCids], for the item [cidStr]. *)
Definition emit (cidStr : string) (fmtd : string) (err : option error)
    (resp : ResponseEmitter) : ResponseEmitter :=
  Emit resp {| CidStr := cidStr;
               Formatted := fmtd;
               ErrorMsg := match err with
                           | Some e => Error e
                           | None => ""
                           end |}.

(** [_, ok := err.(cidutil.FormatStringError)], on an error that may be
    [nil]. *)
Definition isFormatStringErr (err : option error) : bool :=
  match err with
  | Some e => isFormatStringError e
  | None => false
  end.

(** The loop of [emitCids] over [req.Arguments]: the error returned and the
    emitter afterwards. *)
Fixpoint emitCids_loop (args : list string) (opts : cidFormatOpts)
    (resp : ResponseEmitter) : option error * ResponseEmitter :=
  match args with
  | [] => (None, resp)
  | cidStr :: args' =>
      match Decode cidStr with
      | Err err => emitCids_loop args' opts (emit cidStr "" (Some err) resp)
      | Ok c =>
          let base :=
            if bool_decide (newBase opts = -1)
            then fst (ExtractEncoding cidStr)
            else newBase opts in
          match
            match verConv opts with
            | Some conv => conv c
            | None => Ok c
            end
          with
          | Err err => emitCids_loop args' opts (emit cidStr "" (Some err) resp)
          | Ok c =>
              let '(str, err) := Format (fmtStr opts) base c in
              if isFormatStringErr err
              then (* no point in continuing if there is a problem with
                      the format string *)
                (err, resp)
              else emitCids_loop args' opts (emit cidStr str err resp)
          end
      end
  end.

Definition emitCids (req : Request) (resp : ResponseEmitter)
    (opts : cidFormatOpts) : option error * ResponseEmitter :=
  emitCids_loop (Arguments_ req) opts resp.

(** [Run] of [cidFmtCmd], up to the call of [emitCids]: the options it
    builds, or the error it returns early.  The options "f", "v" and "b"
    are strings; the command framework fills in the default "%s" of "f". *)
Definition cidFmtCmd_opts (req : Request) : result cidFormatOpts :=
  let fmtStr := optString req "f" in
  let verStr := optString req "v" in
  let baseStr := optString req "b" in
  if bool_decide (IndexByte fmtStr "%" = -1)
  then Err (Errorf ("invalid format string: " +:+ fmtStr))
  else
    match
      if decide (verStr = "") then Ok None (* noop *)
      else if decide (verStr = "0") then Ok (Some toCidV0)
      else if decide (verStr = "1") then Ok (Some toCidV1)
      else Err (Errorf ("invalid cid version: " +:+ verStr +:+
                        String (ascii_of_nat 10) ""))
    with
    | Err err => Err err
    | Ok verConv =>
        match
          if bool_decide (baseStr ≠ "") then EncoderByName baseStr
          else Ok (-1)
        with
        | Err err => Err err
        | Ok newBase =>
            Ok {| fmtStr := fmtStr; newBase := newBase; verConv := verConv |}
        end
    end.

(** [Run] of [cidFmtCmd]. *)
Definition cidFmtCmd_Run (req : Request) (resp : ResponseEmitter)
    : option error * ResponseEmitter :=
  match cidFmtCmd_opts req with
  | Err err => (Some err, resp)
  | Ok opts => emitCids req resp opts
  end.

(** [Run] of [base32Cmd]. *)
Definition base32Cmd_Run (req : Request) (resp : ResponseEmitter)
    : option error * ResponseEmitter :=
  emitCids req resp
    {| fmtStr := "%s"; newBase := Base32; verConv := Some toCidV1 |}.

(** *** What one item of a batch does

    The definitions below say in the specification's words what the body
    of the loop does with one input string; [emitCids_loop_item] relates
    them to the loop. *)

(** The base handed to [Format] for the input [cidStr]. *)
Definition targetBase (opts : cidFormatOpts) (cidStr : string) : Z :=
  if bool_decide (newBase opts = -1)
  then fst (ExtractEncoding cidStr)
  else newBase opts.

(** The version conversion asked for, if any. *)
Definition convert (opts : cidFormatOpts) (c : Cid) : result Cid :=
  match verConv opts with
  | Some conv => conv c
  | None => Ok c
  end.

(** The input [cidStr] gets as far as rendering: it decodes and converts
    to [c]. *)
Definition rendersAs (opts : cidFormatOpts) (cidStr : string) (c : Cid) : Prop :=
  ∃ c0, Decode cidStr = Ok c0 ∧ convert opts c0 = Ok c.

(** The result [r] records a failure of the input [cidStr] before
    rendering: the input, an empty text and the message of the error of
    decoding or of the version conversion. *)
Definition failedItem (opts : cidFormatOpts) (cidStr : string)
    (r : CidFormatRes) : Prop :=
  (∃ e, Decode cidStr = Err e ∧
        r = {| CidStr := cidStr; Formatted := ""; ErrorMsg := Error e |}) ∨
  (∃ c e, Decode cidStr = Ok c ∧ convert opts c = Err e ∧
        r = {| CidStr := cidStr; Formatted := ""; ErrorMsg := Error e |}).

(** The result [r] records the rendering of the input [cidStr]: the input
    with the text rendered and no message, or, after a failure of
    rendering that is not a format-string error, with what rendering
    returned and the message of its error. *)
Definition renderedItem (opts : cidFormatOpts) (cidStr : string)
    (r : CidFormatRes) : Prop :=
  (∃ c str, rendersAs opts cidStr c ∧
        Format (fmtStr opts) (targetBase opts cidStr) c = (str, None) ∧
        r = {| CidStr := cidStr; Formatted := str; ErrorMsg := "" |}) ∨
  (∃ c str e, rendersAs opts cidStr c ∧
        Format (fmtStr opts) (targetBase opts cidStr) c = (str, Some e) ∧
        isFormatStringError e = false ∧
        r = {| CidStr := cidStr; Formatted := str; ErrorMsg := Error e |}).

(** The result [r] is the one recorded for the input [cidStr]. *)
Definition recorded (opts : cidFormatOpts) (cidStr : string)
    (r : CidFormatRes) : Prop :=
  failedItem opts cidStr r ∨ renderedItem opts cidStr r.

(** Rendering the input [cidStr] reports the format-string error [e]. *)
Definition aborts (opts : cidFormatOpts) (cidStr : string) (e : error) : Prop :=
  ∃ c str, rendersAs opts cidStr c ∧
    Format (fmtStr opts) (targetBase opts cidStr) c = (str, Some e) ∧
    isFormatStringError e = true.

(** The template [fmt] is structurally invalid: rendering it reports a
    format-string error whatever the identifier and the base. *)
Definition badFormatString (fmt : string) : Prop :=
  ∀ base c, isFormatStringErr (snd (Format fmt base c)) = true.

End Batch.

(** ** The registry listings ([cid bases], [cid codecs], [cid hashes]) *)

Record CodeAndName : Type := mkCodeAndName {
  Code : Z;
  Name : string
}.

Global Instance CodeAndName_eq_dec : EqDecision CodeAndName.
Proof. solve_decision. Defined.

Global Instance CodeAndName_inhabited : Inhabited CodeAndName :=
  populate {| Code := 0; Name := "" |}.

(** [for code, name := range m] visits every entry of the map [m] once, in
    an order Go leaves open: [order] is one such order. *)
Definition rangeOrder (m : gmap Z string) (order : list (Z * string)) : Prop :=
  order ≡ₚ map_to_list m.

(** [Run] of [basesCmd] and of [codecsCmd], which differ in the table they
    range over ([mbase.EncodingToStr], [cid.CodecToStr]): the value
    emitted, for the order in which the table was visited. *)
Definition basesCmd_Run (order : list (Z * string)) : list CodeAndName :=
  foldl (λ res '(code, name), res ++ [{| Code := int code; Name := name |}])
        [] order.

Definition codecsCmd_Run (order : list (Z * string)) : list CodeAndName :=
  foldl (λ res '(code, name), res ++ [{| Code := int code; Name := name |}])
        [] order.

(** [Run] of [hashesCmd], over [mhash.Codes]; [IsGoodHash] is
    [verifcid.IsGoodHash]. *)
Definition hashesCmd_Run (IsGoodHash : Z → bool) (order : list (Z * string))
    : list CodeAndName :=
  foldl (λ res '(code, name),
           if negb (IsGoodHash code) then res
           else res ++ [{| Code := int code; Name := name |}])
        [] order.

Section Sorters.

(** [unicode.To(unicode.LowerCase, r)], the case tables consulted for a
    rune beyond ASCII. *)
Variable To_LowerCase : Z → Z.

Definition MaxASCII : Z := 127.

(** [unicode.ToLower]: ASCII is handled without the tables. *)
Definition ToLower (r : Z) : Z :=
  if bool_decide (r ≤ MaxASCII)
  then if bool_decide (65 ≤ r ∧ r ≤ 90) then r + (97 - 65) else r
  else To_LowerCase r.

(** [multibaseSorter.Less], on [s.data]. *)
Definition multibaseSorter_Less (data : list CodeAndName) (i j : nat) : bool :=
  let a := ToLower (rune (Code (data !!! i))) in
  let b := ToLower (rune (Code (data !!! j))) in
  if bool_decide (a ≠ b) then bool_decide (a < b)
  else (* lowecase letters should come before uppercase *)
    bool_decide (Code (data !!! i) > Code (data !!! j)).

(** [codeAndNameSorter.Less], on [s.data]. *)
Definition codeAndNameSorter_Less (data : list CodeAndName) (i j : nat) : bool :=
  bool_decide (Code (data !!! i) < Code (data !!! j)).

(** The key [multibaseSorter.Less] compares first: the marker of the code
    [code], in lower case. *)
Definition markerKey (code : Z) : Z := ToLower (rune code).

(** In the specification's words: an entry with the code [x] may be listed
    before one with the code [y] when its marker comes first without regard
    to case or, the markers being the same letter, when its code is not the
    smaller one (the lower-case letter has the greater code). *)
Definition markerOrder (x y : Z) : Prop :=
  markerKey x < markerKey y ∨ (markerKey x = markerKey y ∧ y ≤ x).

End Sorters.

(** [sort.IsSorted]: no element is [Less] than the one before it. *)
Definition sort_IsSorted (Less : list CodeAndName → nat → nat → bool)
    (data : list CodeAndName) : Prop :=
  ∀ i : nat, (0 < i < length data)%nat → Less data i (i - 1)%nat = false.

(** What [sort.Sort] promises: [sorted], the slice afterwards, holds the
    elements of [data], the slice before, and is sorted. *)
Definition sort_Sort (Less : list CodeAndName → nat → nat → bool)
    (data sorted : list CodeAndName) : Prop :=
  sorted ≡ₚ data ∧ sort_IsSorted Less sorted.

(** A cell of the table the text encoders write: the marker as a character
    ("%c"), an empty cell, a code in decimal ("%d") or a name ("%s"). *)
Inductive Cell : Type :=
| CellChar (code : Z)
| CellEmpty
| CellNum (code : Z)
| CellName (name : string).

(** The line the text encoder of [basesCmd] writes for the entry [v]. *)
Definition basesCmd_line (prefixes numeric : bool) (v : CodeAndName) : list Cell :=
  (if prefixes && bool_decide (Code v >= 32) && bool_decide (Code v < 127)
   then [CellChar (Code v)]
   else if prefixes
        then (* don't display non-printable prefixes *) [CellEmpty]
        else []) ++
  (if numeric then [CellNum (Code v); CellName (Name v)]
   else [CellName (Name v)]).

(** The line the text encoder of [codecsCmd] and [hashesCmd] writes. *)
Definition codecsCmd_line (numeric : bool) (v : CodeAndName) : list Cell :=
  if numeric then [CellNum (Code v); CellName (Name v)]
  else [CellName (Name v)].

(** The text encoder of [basesCmd]: [lines] is a listing it may write for
    the value [val]. *)
Definition basesCmd_Text (To_LowerCase : Z → Z) (prefixes numeric : bool)
    (val : list CodeAndName) (lines : list (list Cell)) : Prop :=
  ∃ sorted, sort_Sort (multibaseSorter_Less To_LowerCase) val sorted ∧
            lines = basesCmd_line prefixes numeric <$> sorted.

(** The text encoder of [codecsCmd], which [hashesCmd] shares. *)
Definition codecsCmd_Text (numeric : bool)
    (val : list CodeAndName) (lines : list (list Cell)) : Prop :=
  ∃ sorted, sort_Sort codeAndNameSorter_Less val sorted ∧
            lines = codecsCmd_line numeric <$> sorted.

(** ** [urlstore add] *)

(** The two layouts of the importer, [balanced.Layout] and
    [trickle.Layout], as the values the variable [layout] of [urlAdd] can
    hold. *)
Inductive Layout : Type :=
| balanced_Layout
| trickle_Layout.

Global Instance Layout_eq_dec : EqDecision Layout.
Proof. solve_decision. Defined.

Record BlockStat : Type := mkBlockStat {
  Key : string;
  Size : Z
}.

Section UrlStore.

(** The types of the collaborators: the IPFS node, its configuration and
    DAG service, the body of an HTTP response, an HTTP request, the
    chunker, the CID prefix, the DAG builder and the node it builds. *)
Variables Environment IpfsNode Config DAGService : Type.
Variables HttpRequest HttpBody Splitter Prefix DagBuilderHelper IpldNode : Type.

(** [http.Response], the fields [urlAdd] reads. *)
Record Response : Type := mkResponse {
  StatusCode : Z;
  Body : HttpBody;
  ContentLength : Z
}.

(** [ihelper.DagBuilderParams], the fields [urlAdd] sets. *)
Record DagBuilderParams : Type := mkDagBuilderParams {
  Dagserv : DAGService;
  RawLeaves : bool;
  Maxlinks : Z;
  NoCopy : bool;
  CidBuilder : Prefix;
  URL : string
}.

(** One invocation of the importer: the layout called and the builder it
    was called on. *)
Record ImporterCall : Type := mkImporterCall {
  callLayout : Layout;
  callBuilder : DagBuilderHelper
}.

Variable trickleOptionName : string.
Variable GetNode : Environment → result IpfsNode.
Variable IsURL : string → bool.
Variable Repo_Config : IpfsNode → result Config.
Variable UrlstoreEnabled : Config → bool.
Variable ErrUrlstoreNotEnabled : error.
Variable DAG : IpfsNode → DAGService.
Variable http_NewRequest : string → string → result HttpRequest.
Variable http_Do : HttpRequest → result Response.
Variable StatusOK : Z.
Variable NewSizeSplitter : HttpBody → Z → Splitter.
Variable DefaultBlockSize : Z.
Variable NewPrefixV1 : Z → Z → Prefix.
Variable DefaultLinksPerBlock : Z.
Variable DagBuilderParams_New : DagBuilderParams → Splitter → DagBuilderHelper.
(** Calling the function held by [layout]. *)
Variable callImporter : Layout → DagBuilderHelper → result IpldNode.
(** [root.Cid().String()]. *)
Variable Cid_String : IpldNode → string.
(** The message of [fmt.Errorf("expected code 200, got: %d", code)]. *)
Variable expectedCode200 : Z → string.
(** The error [cmds.EmitOnce] returns for the value it is handed ([None] for
    [nil]). *)
Variable EmitOnce : BlockStat → option error.

(** The parameters [urlAdd] builds for the node [n] and the URL [url]. *)
Definition urlAdd_dbp (n : IpfsNode) (url : string) : DagBuilderParams :=
  {| Dagserv := DAG n;
     RawLeaves := true;
     Maxlinks := DefaultLinksPerBlock;
     NoCopy := true;
     CidBuilder := NewPrefixV1 DagProtobuf SHA2_256;
     URL := url |}.

(** What a run of [urlAdd] leaves behind: the error returned, the values
    handed to [cmds.EmitOnce] and the invocations of the importer, in
    order. *)
Record UrlAddRun : Type := mkUrlAddRun {
  returned : option error;
  emitted : list BlockStat;
  importerCalls : list ImporterCall
}.

Definition urlAdd_fail (err : error) : UrlAddRun :=
  {| returned := Some err; emitted := []; importerCalls := [] |}.

(** [Run] of [urlAdd]; [None] is the run-time panic of [req.Arguments[0]]
    on a request without arguments (the command declares the argument
    required). *)
Definition urlAdd_Run (req : Request) (env : Environment) : option UrlAddRun :=
  match Arguments_ req with
  | [] => None
  | url :: _ =>
    Some
      match GetNode env with
      | Err err => urlAdd_fail err
      | Ok n =>
        if negb (IsURL url)
        then urlAdd_fail (Errorf ("unsupported url syntax: " +:+ url))
        else
          match Repo_Config n with
          | Err err => urlAdd_fail err
          | Ok cfg =>
            if negb (UrlstoreEnabled cfg)
            then urlAdd_fail ErrUrlstoreNotEnabled
            else
              let useTrickledag := optBool req trickleOptionName in
              match http_NewRequest "GET" url with
              | Err err => urlAdd_fail err
              | Ok hreq =>
                match http_Do hreq with
                | Err err => urlAdd_fail err
                | Ok hres =>
                  if bool_decide (StatusCode hres ≠ StatusOK)
                  then urlAdd_fail (Errorf (expectedCode200 (StatusCode hres)))
                  else
                    let chk := NewSizeSplitter (Body hres) DefaultBlockSize in
                    let dbp := urlAdd_dbp n url in
                    let layout :=
                      if useTrickledag then trickle_Layout
                      else balanced_Layout in
                    let call := {| callLayout := layout;
                                   callBuilder := DagBuilderParams_New dbp chk |} in
                    match callImporter layout (DagBuilderParams_New dbp chk) with
                    | Err err =>
                        {| returned := Some err; emitted := [];
                           importerCalls := [call] |}
                    | Ok root =>
                        let bs := {| Key := Cid_String root;
                                     Size := int (ContentLength hres) |} in
                        {| returned := EmitOnce bs;
                           emitted := [bs];
                           importerCalls := [call] |}
                    end
                end
              end
          end
      end
  end.

End UrlStore.

(** ** The rest of the sorters and the presentation of a result *)

(** [multibaseSorter.Len] and [codeAndNameSorter.Len]. *)
Definition multibaseSorter_Len (data : list CodeAndName) : nat := length data.
Definition codeAndNameSorter_Len (data : list CodeAndName) : nat := length data.

(** [multibaseSorter.Swap], [s.data[i], s.data[j] = s.data[j], s.data[i]]:
    the slice afterwards, or [None] for the run-time panic of an index out of
    range.  Both elements are read before either is written. *)
Definition multibaseSorter_Swap (data : list CodeAndName) (i j : nat)
    : option (list CodeAndName) :=
  match data !! i, data !! j with
  | Some x, Some y => Some (<[j := x]> (<[i := y]> data))
  | _, _ => None
  end.

(** [codeAndNameSorter.Swap]. *)
Definition codeAndNameSorter_Swap (data : list CodeAndName) (i j : nat)
    : option (list CodeAndName) :=
  match data !! i, data !! j with
  | Some x, Some y => Some (<[j := x]> (<[i := y]> data))
  | _, _ => None
  end.

(** The function [PostRun] of [cidFmtCmd] hands to [streamRes], on one
    result: the text written to [out] and the [nonFatalError] returned (the
    empty string for none). *)
Definition cidFmtCmd_PostRun (r : CidFormatRes) : string * string :=
  if bool_decide (ErrorMsg r ≠ "")
  then ("", CidStr r +:+ ": " +:+ ErrorMsg r)
  else (Formatted r +:+ String (ascii_of_nat 10) "", "").

(** ** Stand-ins for the libraries

    Small executable stand-ins for the library functions, on which the
    commands can be run: a decoder that knows two identifiers, and a renderer
    with the directives "%%" and "%V". *)
Module Sample.

(** The sha2-256 multihash of the empty block. *)
Definition emptyBlockHash : Multihash :=
  {| MhType := SHA2_256;
     Digest := [xe3; xb0; xc4; x42; x98; xfc; x1c; x14; x9a; xfb; xf4; xc8;
                x99; x6f; xb9; x24; x27; xae; x41; xe4; x64; x9b; x93; x4c;
                xa4; x95; x99; x1b; x78; x52; xb8; x55] |}.

Definition rawBlockHash : Multihash :=
  {| MhType := SHA2_256;
     Digest := [x6e; x6f; xf7; x95; x0a; x36; x18; x7a; x80; x16; x13; x42;
                x6e; x85; x8d; xce; x68; x6c; xd7; xd7; xe3; xc0; xfc; x42;
                xee; x03; x30; x07; x2d; x24; x5c; x95] |}.

(** A version 0 identifier and a version 1 identifier (codec raw, 0x55),
    both in base58btc. *)
Definition v0Text : string := "QmdfTbBqBPQ7VNxZEYEj14VmRuZBkqFbiwReogJgS1zR1n".
Definition v1Text : string := "zb2rhe5P4gXftAwvA4eXQ5HJwsER2owDyS9sKaQRRVQPn93bA".

Definition Decode (v : string) : result Cid :=
  if decide (v = v0Text) then Ok (NewCidV0 emptyBlockHash)
  else if decide (v = v1Text) then Ok (NewCidV1 85 rawBlockHash)
  else Err (Errorf "selected encoding not supported").

Definition ExtractEncoding (v : string) : Z * option error :=
  if decide (v = v0Text) then (Base58BTC, None)
  else if decide (v = v1Text) then (Base58BTC, None)
  else (-1, Some (Errorf "selected encoding not supported")).

Definition prematureEnd : error :=
  {| isFormatStringError := true;
     Error := "premature end of format string" |}.

Definition unrecognized : error :=
  {| isFormatStringError := true;
     Error := "unrecognized specifier in format string" |}.

Definition versionDigit (c : Cid) : ascii :=
  match c with
  | NewCidV0 _ => "0"%char
  | NewCidV1 _ _ => "1"%char
  end.

Definition andThen (a : ascii) (r : string * option error)
    : string * option error :=
  match r with
  | (s, None) => (String a s, None)
  | (_, Some e) => ("", Some e)
  end.

Fixpoint render (c : Cid) (fmt : string) : string * option error :=
  match fmt with
  | EmptyString => ("", None)
  | String a EmptyString =>
      if Ascii.eqb a "%" then ("", Some prematureEnd) else (String a "", None)
  | String a (String d rest as fmt') =>
      if Ascii.eqb a "%"
      then if Ascii.eqb d "%" then andThen "%" (render c rest)
           else if Ascii.eqb d "V" then andThen (versionDigit c) (render c rest)
           else ("", Some unrecognized)
      else andThen a (render c fmt')
  end.

Definition Format (fmtStr : string) (base : Z) (c : Cid) : string * option error :=
  render c fmtStr.

Definition EncoderByName (name : string) : result Z :=
  if decide (name = "base32") then Ok Base32
  else if decide (name = "base58btc") then Ok Base58BTC
  else Err (Errorf ("Unsupported multibase encoding: " +:+ name)).

(** Four multibase encodings, an order in which a [range] may visit them,
    and the listing of them with markers and codes. *)
Definition EncodingToStr : gmap Z string :=
  list_to_map [(66, "base32upper"); (98, "base32");
               (70, "base16upper"); (102, "base16")].

Definition EncodingToStr_order : list (Z * string) :=
  [(70, "base16upper"); (66, "base32upper"); (102, "base16"); (98, "base32")].

Definition bases_lines : list (list Cell) :=
  [[CellChar 98; CellNum 98; CellName "base32"];
   [CellChar 66; CellNum 66; CellName "base32upper"];
   [CellChar 102; CellNum 102; CellName "base16"];
   [CellChar 70; CellNum 70; CellName "base16upper"]].

(** Four hash functions, of which "md5" and "sha1" are not acceptable. *)
Definition Codes : gmap Z string :=
  list_to_map [(17, "sha1"); (18, "sha2-256"); (19, "sha2-512"); (213, "md5")].

Definition Codes_order : list (Z * string) :=
  [(213, "md5"); (19, "sha2-512"); (17, "sha1"); (18, "sha2-256")].

Definition IsGoodHash (code : Z) : bool :=
  bool_decide (code = 18) || bool_decide (code = 19).

Definition hashes_lines : list (list Cell) :=
  [[CellNum 18; CellName "sha2-256"]; [CellNum 19; CellName "sha2-512"]].

(** [urlstore add] on a node whose configuration enables the urlstore, with
    an HTTP client that answers every request with status 200 and the URL as
    the body, and an importer that returns the name of the layout. *)
Definition urlAdd (req : Request) :=
  urlAdd_Run unit unit bool unit string string (string * Z) (Z * Z)
    (DagBuilderParams unit (Z * Z) * (string * Z)) string
    "trickle"
    (λ _, Ok ())
    (λ url, bool_decide (url ≠ ""))
    (λ _, Ok true)
    (λ cfg, cfg)
    (Errorf "urlstore not enabled")
    (λ _, ())
    (λ _ url, Ok url)
    (λ hreq, Ok {| StatusCode := 200; Body := hreq; ContentLength := 5 |})
    200
    (λ body size, (body, size))
    262144
    (λ codec mhType, (codec, mhType))
    174
    (λ dbp chk, (dbp, chk))
    (λ layout _, Ok match layout with
                    | balanced_Layout => "balanced"
                    | trickle_Layout => "trickle"
                    end)
    (λ root, root)
    (λ _, "expected code 200")
    (λ _, None)
    req ().

(** Three codecs, an order in which a [range] may visit them, and the
    listing of them with codes. *)
Definition CodecToStr : gmap Z string :=
  list_to_map [(85, "raw"); (112, "protobuf"); (113, "cbor")].

Definition CodecToStr_order : list (Z * string) :=
  [(113, "cbor"); (85, "raw"); (112, "protobuf")].

Definition codecs_lines : list (list Cell) :=
  [[CellNum 85; CellName "raw"]; [CellNum 112; CellName "protobuf"];
   [CellNum 113; CellName "cbor"]].

(** The case tables, as far as the stand-ins go: the Kelvin sign (U+212A,
    8490), a capital letter beyond ASCII, has the lower case 'k' (107). *)
Definition To_LowerCase (r : Z) : Z :=
  if bool_decide (r = 8490) then 107 else r.




(** A renderer that also knows "%s", for which it writes the marker of the
    base and the version of the identifier. *)
Definition FormatText (fmtStr : string) (base : Z) (c : Cid)
    : string * option error :=
  if decide (fmtStr = "%s")
  then (String (ascii_of_nat (Z.to_nat base)) (String (versionDigit c) ""), None)
  else render c fmtStr.

(** [cid.ExtractEncoding] of the stand-ins without its error. *)
Definition ExtractEncodingNoError (v : string) : Z * option error :=
  ((ExtractEncoding v).1, None).

End Sample.

(** ** Properties of the version conversion *)

Section VersionConversion.

Lemma toCidV0_legacy (c : Cid) :
  Type_ c = DagProtobuf → toCidV0 c = Ok (NewCidV0 (Hash c)).
Proof.
  intros Hc. unfold toCidV0. by rewrite bool_decide_eq_false_2 by (by intros ?).
Qed.

Lemma toCidV0_other (c : Cid) :
  Type_ c ≠ DagProtobuf →
  toCidV0 c = Err (Errorf "can't convert non-protobuf nodes to cidv0").
Proof. intros Hc. unfold toCidV0. by rewrite bool_decide_eq_true_2. Qed.

End VersionConversion.

(** C3: [toCidV0 id] succeeds exactly when the codec of [id] is the legacy
    codec [DagProtobuf]; a successful conversion returns an identifier of
    version 0 whose multihash (hash-function tag and digest bytes) is that of
    [id]; for every other codec the conversion fails, with the error
    "can't convert non-protobuf nodes to cidv0". *)
Theorem toCidV0_succeeds_iff_legacy_codec (id : Cid) :
  ((∃ id', toCidV0 id = Ok id') ↔ Type_ id = DagProtobuf) ∧
  (∀ id', toCidV0 id = Ok id' →
     Version id' = 0 ∧ Hash id' = Hash id ∧
     MhType (Hash id') = MhType (Hash id) ∧
     Digest (Hash id') = Digest (Hash id)) ∧
  (Type_ id ≠ DagProtobuf →
     toCidV0 id = Err (Errorf "can't convert non-protobuf nodes to cidv0")).
Proof.
  destruct (decide (Type_ id = DagProtobuf)) as [Heq|Hne].
  - rewrite (toCidV0_legacy id Heq). split_and!.
    + split; [done | eauto].
    + intros id' [= <-]. done.
    + done.
  - rewrite (toCidV0_other id Hne). split_and!.
    + split; [intros [? [=]] | done].
    + intros ? [=].
    + done.
Qed.

(** C4: for an identifier [x] whose codec is the legacy codec, converting to
    version 1 and back to version 0 succeeds and gives an identifier with the
    codec and the multihash of [x]; so does converting to version 0 and then
    to version 1. *)
Theorem toCidV0_toCidV1_round_trip (x : Cid) :
  Type_ x = DagProtobuf →
  (∃ y z, toCidV1 x = Ok y ∧ toCidV0 y = Ok z ∧
          Type_ z = Type_ x ∧ Hash z = Hash x) ∧
  (∃ y z, toCidV0 x = Ok y ∧ toCidV1 y = Ok z ∧
          Type_ z = Type_ x ∧ Hash z = Hash x).
Proof.
  intros Hx. split.
  - exists (NewCidV1 (Type_ x) (Hash x)), (NewCidV0 (Hash x)).
    split_and!; [done | | by rewrite Hx | done].
    by apply (toCidV0_legacy (NewCidV1 (Type_ x) (Hash x))).
  - exists (NewCidV0 (Hash x)), (NewCidV1 DagProtobuf (Hash x)).
    split_and!; [by apply toCidV0_legacy | done | by rewrite Hx | done].
Qed.

(** The version 1 identifier of the empty block with the legacy codec. *)
Lemma toCidV0_toCidV1_round_trip_witness :
  let x := NewCidV1 DagProtobuf Sample.emptyBlockHash in
  Type_ x = DagProtobuf ∧
  (∃ y z, toCidV1 x = Ok y ∧ toCidV0 y = Ok z ∧
          Type_ z = DagProtobuf ∧ Hash z = Sample.emptyBlockHash) ∧
  (∃ y z, toCidV0 x = Ok y ∧ toCidV1 y = Ok z ∧
          Type_ z = DagProtobuf ∧ Hash z = Sample.emptyBlockHash).
Proof.
  split; [reflexivity |].
  apply (toCidV0_toCidV1_round_trip (NewCidV1 DagProtobuf Sample.emptyBlockHash)).
  reflexivity.
Defined.

(** C5: [toCidV1 id] never fails; it returns an identifier of version 1 with
    the codec of [id] (the legacy codec, now explicit, when [id] has
    version 0) and the multihash of [id].  The conversions that change
    nothing, version 0 to version 0 and version 1 to version 1, succeed and
    return the identifier they were given. *)
Theorem toCidV1_total_and_noop_conversions (id : Cid) :
  (∃ id', toCidV1 id = Ok id' ∧
          Version id' = 1 ∧ Type_ id' = Type_ id ∧ Hash id' = Hash id ∧
          MhType (Hash id') = MhType (Hash id) ∧
          Digest (Hash id') = Digest (Hash id)) ∧
  (Version id = 0 → Type_ id = DagProtobuf ∧ toCidV0 id = Ok id) ∧
  (Version id = 1 → toCidV1 id = Ok id).
Proof.
  split_and!.
  - exists (NewCidV1 (Type_ id) (Hash id)). done.
  - destruct id as [h|c h]; [| by intros [=]].
    intros _. split; [done|]. by apply toCidV0_legacy.
  - destruct id as [h|c h]; [by intros [=] | done].
Qed.

(** ** Properties of the batch commands *)

Section BatchFacts.

Variable Decode : string → result Cid.
Variable ExtractEncoding : string → Z * option error.
Variable Format : string → Z → Cid → string * option error.

Local Abbreviation loop := (emitCids_loop Decode ExtractEncoding Format).
Local Abbreviation recorded_ := (recorded Decode ExtractEncoding Format).
Local Abbreviation aborts_ := (aborts Decode ExtractEncoding Format).

(** One turn of the loop: the item is recorded and the loop goes on, or
    rendering the item reports a format-string error and the loop returns
    it. *)
Lemma emitCids_loop_item (opts : cidFormatOpts) (cidStr : string) :
  (∃ r, recorded_ opts cidStr r ∧
        ∀ args resp, loop (cidStr :: args) opts resp = loop args opts (resp ++ [r])) ∨
  (∃ e, aborts_ opts cidStr e ∧
        ∀ args resp, loop (cidStr :: args) opts resp = (Some e, resp)).
Proof.
  unfold recorded, failedItem, renderedItem, aborts, rendersAs.
  cbn [emitCids_loop].
  change (match verConv opts with Some conv => conv ?c | None => Ok ?c end)
    with (convert opts c).
  change (if bool_decide (newBase opts = -1) then (ExtractEncoding cidStr).1
          else newBase opts) with (targetBase ExtractEncoding opts cidStr).
  destruct (Decode cidStr) as [c|e] eqn:Hd.
  2: { left. eexists. split; [left; left; eauto | done]. }
  destruct (convert opts c) as [c'|e] eqn:Hc.
  2: { left. eexists. split; [left; right; eauto | done]. }
  destruct (Format (fmtStr opts) (targetBase ExtractEncoding opts cidStr) c')
    as [str [e|]] eqn:Hf; cbn [isFormatStringErr].
  - destruct (isFormatStringError e) eqn:He.
    + right. exists e. split; [eauto 10 | done].
    + left. eexists. split; [right; right; eauto 10 | done].
  - left. eexists. split; [right; left; eauto 10 | done].
Qed.

(** Under a structurally invalid template nothing is recorded as rendered. *)
Lemma badFormatString_not_rendered (opts : cidFormatOpts) (cidStr : string)
    (r : CidFormatRes) :
  badFormatString Format (fmtStr opts) →
  renderedItem Decode ExtractEncoding Format opts cidStr r → False.
Proof.
  intros Hbad [(c & str & _ & Hf & _)|(c & str & e & _ & Hf & He & _)];
    specialize (Hbad (targetBase ExtractEncoding opts cidStr) c);
    rewrite Hf in Hbad; simpl in Hbad; congruence.
Qed.

End BatchFacts.

(** [strings.IndexByte] returns -1 exactly on a string without the byte. *)
Lemma IndexByte_from_spec (i : Z) (s : string) (c : ascii) :
  0 ≤ i →
  (IndexByte_from i s c = -1 ∧ c ∉ String.list_ascii_of_string s) ∨
  (i ≤ IndexByte_from i s c ∧ c ∈ String.list_ascii_of_string s).
Proof.
  revert i. induction s as [|a s IH]; intros i Hi; simpl.
  - left. split; [done | apply not_elem_of_nil].
  - destruct (Ascii.eqb a c) eqn:Hac.
    + apply Ascii.eqb_eq in Hac as ->. right. split; [lia | left].
    + apply Ascii.eqb_neq in Hac.
      destruct (IH (i + 1)) as [[-> Hn]|[Hle Hin]]; [lia | |].
      * left. split; [done |]. rewrite not_elem_of_cons. done.
      * right. split; [lia | by right].
Qed.

Lemma IndexByte_none (s : string) (c : ascii) :
  IndexByte s c = -1 ↔ c ∉ String.list_ascii_of_string s.
Proof.
  unfold IndexByte.
  destruct (IndexByte_from_spec 0 s c) as [[H1 H2]|[H1 H2]]; [lia | |].
  - done.
  - split; [lia | done].
Qed.

(** C1, as the code has it: a format-string error is fatal to the batch, but
    it is found while an item is rendered, not before the loop.  When the
    template is structurally invalid, [emitCids] emits the failure result
    (input, empty text, error) of every input up to the first one that
    decodes and converts, returns the format-string error there and emits
    nothing more; when no input decodes and converts, as for an empty input
    sequence, it emits the failure result of every input and returns no
    error. *)
Theorem emitCids_bad_format_string
    (Decode : string → result Cid)
    (ExtractEncoding : string → Z * option error)
    (Format : string → Z → Cid → string * option error)
    (req : Request) (resp : ResponseEmitter) (opts : cidFormatOpts) :
  badFormatString Format (fmtStr opts) →
  ∃ done rs,
    snd (emitCids Decode ExtractEncoding Format req resp opts) = resp ++ rs ∧
    Forall2 (failedItem Decode opts) done rs ∧
    ((fst (emitCids Decode ExtractEncoding Format req resp opts) = None ∧
      done = Arguments_ req) ∨
     (∃ e cidStr c rest,
        fst (emitCids Decode ExtractEncoding Format req resp opts) = Some e ∧
        isFormatStringError e = true ∧
        Arguments_ req = done ++ cidStr :: rest ∧
        rendersAs Decode opts cidStr c)).
Proof.
  intros Hbad. unfold emitCids.
  generalize (Arguments_ req) as args. intros args. revert resp.
  induction args as [|cidStr args IH]; intros resp.
  - exists [], []. simpl. rewrite app_nil_r. auto.
  - destruct (emitCids_loop_item Decode ExtractEncoding Format opts cidStr)
      as [(r & [Hr|Hr] & Heq)|(e & (c & str & Hc & _ & He) & Heq)].
    + rewrite Heq. destruct (IH (resp ++ [r])) as (done & rs & H1 & H2 & H3).
      exists (cidStr :: done), (r :: rs). split_and!.
      * by rewrite H1, <- app_assoc.
      * by constructor.
      * destruct H3 as [[H3 ->]|(e & s & c & rest & H3 & He & -> & Hc)].
        -- by left.
        -- right. exists e, s, c, rest. done.
    + destruct (badFormatString_not_rendered _ _ _ _ _ _ Hbad Hr).
    + rewrite Heq. exists [], []. simpl. rewrite app_nil_r.
      split_and!; [done | constructor |]. right. exists e, cidStr, c, args. done.
Qed.

(** The stand-ins on the template "%", with an undecodable input before two
    valid ones. *)
Lemma emitCids_bad_format_string_witness :
  let opts := {| fmtStr := "%"; newBase := -1; verConv := Some toCidV1 |} in
  let req := {| Arguments_ := ["not-a-cid"; Sample.v0Text; Sample.v1Text];
                Options := ∅ |} in
  badFormatString Sample.Format (fmtStr opts) ∧
  ∃ done rs,
    snd (emitCids Sample.Decode Sample.ExtractEncoding Sample.Format req [] opts)
      = [] ++ rs ∧
    Forall2 (failedItem Sample.Decode opts) done rs ∧
    ((fst (emitCids Sample.Decode Sample.ExtractEncoding Sample.Format req [] opts)
        = None ∧ done = Arguments_ req) ∨
     (∃ e cidStr c rest,
        fst (emitCids Sample.Decode Sample.ExtractEncoding Sample.Format req [] opts)
          = Some e ∧
        isFormatStringError e = true ∧
        Arguments_ req = done ++ cidStr :: rest ∧
        rendersAs Sample.Decode opts cidStr c)).
Proof.
  split; [intros base c; reflexivity |].
  apply (emitCids_bad_format_string Sample.Decode Sample.ExtractEncoding
           Sample.Format).
  intros base c. reflexivity.
Defined.

(** C1 fails as stated: with the structurally invalid template "%", the
    batch over an empty input sequence returns no error, and the batch over
    an undecodable input followed by a valid one emits a result for the
    first input before it returns the format-string error. *)
Lemma emitCids_bad_format_string_found_in_loop :
  let opts := {| fmtStr := "%"; newBase := -1; verConv := None |} in
  badFormatString Sample.Format "%" ∧
  emitCids Sample.Decode Sample.ExtractEncoding Sample.Format
    {| Arguments_ := []; Options := ∅ |} [] opts = (None, []) ∧
  emitCids Sample.Decode Sample.ExtractEncoding Sample.Format
    {| Arguments_ := ["not-a-cid"; Sample.v0Text]; Options := ∅ |} [] opts
  = (Some Sample.prematureEnd,
     [{| CidStr := "not-a-cid"; Formatted := "";
         ErrorMsg := "selected encoding not supported" |}]).
Proof.
  split_and!; [intros base c; reflexivity | reflexivity | reflexivity].
Qed.

(** C2, as the code has it: the batch processes the inputs in order and
    emits one result for each input it gets through; the result of an input
    depends on that input alone (it is what the batch of that single input
    emits), and a failure of decoding or of the version conversion is
    recorded as (input, empty text, error) and the batch goes on.  The batch
    gets through every input unless rendering one of them reports a
    format-string error: it then returns that error, having emitted the
    results of the inputs before that one and nothing else. *)
Theorem emitCids_one_result_per_item
    (Decode : string → result Cid)
    (ExtractEncoding : string → Z * option error)
    (Format : string → Z → Cid → string * option error)
    (req : Request) (resp : ResponseEmitter) (opts : cidFormatOpts) :
  ∃ done rs,
    snd (emitCids Decode ExtractEncoding Format req resp opts) = resp ++ rs ∧
    Forall2 (recorded Decode ExtractEncoding Format opts) done rs ∧
    Forall2 (λ cidStr r,
               emitCids Decode ExtractEncoding Format
                 {| Arguments_ := [cidStr]; Options := Options req |} [] opts
               = (None, [r])) done rs ∧
    match fst (emitCids Decode ExtractEncoding Format req resp opts) with
    | None => done = Arguments_ req
    | Some e =>
        ∃ cidStr rest, Arguments_ req = done ++ cidStr :: rest ∧
                       aborts Decode ExtractEncoding Format opts cidStr e
    end.
Proof.
  unfold emitCids.
  generalize (Arguments_ req) as args. intros args. revert resp.
  induction args as [|cidStr args IH]; intros resp.
  - exists [], []. simpl. rewrite app_nil_r. split_and!; done || constructor.
  - destruct (emitCids_loop_item Decode ExtractEncoding Format opts cidStr)
      as [(r & Hr & Heq)|(e & He & Heq)].
    + rewrite Heq.
      destruct (IH (resp ++ [r])) as (done & rs & H1 & H2 & H3 & H4).
      exists (cidStr :: done), (r :: rs). split_and!.
      * by rewrite H1, <- app_assoc.
      * by constructor.
      * constructor; [| done]. cbn [Arguments_]. by rewrite Heq.
      * destruct (emitCids_loop Decode ExtractEncoding Format args opts
                    (resp ++ [r])).1 as [e|].
        -- destruct H4 as (s & rest & -> & Hs). by exists s, rest.
        -- by rewrite H4.
    + rewrite Heq. exists [], []. simpl. rewrite app_nil_r.
      split_and!; [done | constructor | constructor |]. by exists cidStr, args.
Qed.

(** C2 fails as stated: with the template "%", which rendering rejects with
    a format-string error, the batch over two valid identifiers emits no
    result at all. *)
Lemma emitCids_fewer_results_than_inputs :
  emitCids Sample.Decode Sample.ExtractEncoding Sample.Format
    {| Arguments_ := [Sample.v0Text; Sample.v1Text]; Options := ∅ |} []
    {| fmtStr := "%"; newBase := -1; verConv := None |}
  = (Some Sample.prematureEnd, []).
Proof. reflexivity. Qed.

(** C9: [cid format] rejects a format string without any '%' before it looks
    at its arguments: it returns the error "invalid format string: " followed
    by the string and emits nothing, whatever the arguments and whatever the
    decoder; and the options with which [emitCids] is called exist only for a
    format string that contains a '%'. *)
Theorem cidFmtCmd_rejects_format_without_percent
    (Decode : string → result Cid)
    (ExtractEncoding : string → Z * option error)
    (Format : string → Z → Cid → string * option error)
    (EncoderByName : string → result Z)
    (req : Request) (resp : ResponseEmitter) :
  ("%"%char ∉ String.list_ascii_of_string (optString req "f") →
     cidFmtCmd_Run Decode ExtractEncoding Format EncoderByName req resp
     = (Some (Errorf ("invalid format string: " +:+ optString req "f")), resp)) ∧
  (∀ opts, cidFmtCmd_opts EncoderByName req = Ok opts →
     fmtStr opts = optString req "f" ∧
     "%"%char ∈ String.list_ascii_of_string (optString req "f")).
Proof.
  unfold cidFmtCmd_Run, cidFmtCmd_opts. split.
  - intros Hno. apply IndexByte_none in Hno.
    by rewrite bool_decide_eq_true_2.
  - intros opts. case_bool_decide as Hidx; [done |].
    assert ("%"%char ∈ String.list_ascii_of_string (optString req "f")) as Hin.
    { destruct (decide ("%"%char ∈ String.list_ascii_of_string (optString req "f")))
        as [|Hn]; [done |]. by apply IndexByte_none in Hn. }
    repeat case_decide; try done;
      case_bool_decide; try destruct (EncoderByName _); intros [= <-]; done.
Qed.

(** ** Properties of the registry listings *)

Section SortFacts.

Variable less : CodeAndName → CodeAndName → bool.

(** A slice that [sort.IsSorted] accepts is sorted in the sense of
    [Sorted], when [Less] compares the elements at the two indices. *)
Lemma sort_IsSorted_Sorted (data : list CodeAndName) :
  sort_IsSorted (λ d i j, less (d !!! i) (d !!! j)) data →
  Sorted (λ x y, less y x = false) data.
Proof.
  unfold sort_IsSorted. induction data as [|x l IH]; intros H; [constructor |].
  constructor.
  - apply IH. intros i Hi. specialize (H (S i)).
    destruct i as [|i]; [lia |].
    replace (S (S i) - 1)%nat with (S i) in H by lia.
    replace (S i - 1)%nat with i by lia.
    apply H. simpl. lia.
  - destruct l as [|y l]; constructor. apply (H 1%nat). simpl. lia.
Qed.

End SortFacts.

Lemma StronglySorted_lookup {A} (R : relation A) (l : list A) :
  StronglySorted R l →
  ∀ (i j : nat) x y, (i < j)%nat → l !! i = Some x → l !! j = Some y → R x y.
Proof.
  induction 1 as [|a l Hs IH Hall]; intros i j x y Hij Hi Hj; [done |].
  destruct j as [|j]; [lia |]. simpl in Hj. destruct i as [|i].
  - simpl in Hi. injection Hi as <-. rewrite Forall_forall in Hall.
    apply Hall. by eapply list_elem_of_lookup_2.
  - simpl in Hi. eapply IH; [| done..]. lia.
Qed.

(** The value a [Run] emits holds one entry per entry visited, in the order
    of the visit. *)
Lemma basesCmd_Run_fmap (order : list (Z * string)) :
  basesCmd_Run order
  = (λ kv, {| Code := int kv.1; Name := kv.2 |}) <$> order.
Proof.
  unfold basesCmd_Run. induction order as [|[code name] order IH] using rev_ind;
    [done |].
  by rewrite foldl_snoc, fmap_snoc, IH.
Qed.

Section MultibaseOrder.

Variable To_LowerCase : Z → Z.

Local Abbreviation key := (markerKey To_LowerCase).
Local Abbreviation order := (markerOrder To_LowerCase).

Lemma multibaseSorter_Less_false (data : list CodeAndName) (i j : nat) :
  multibaseSorter_Less To_LowerCase data i j = false ↔
  order (Code (data !!! j)) (Code (data !!! i)).
Proof.
  unfold multibaseSorter_Less, markerOrder, markerKey.
  repeat case_bool_decide; split; intros; try done; lia.
Qed.

Global Instance markerOrder_trans : Transitive order.
Proof. unfold markerOrder. intros x y z. lia. Qed.

Global Instance markerOrder_antisymm : AntiSymm (=) order.
Proof. unfold markerOrder. intros x y. lia. Qed.



End MultibaseOrder.

(** In a sorted list every element is related to the one after it. *)
Lemma Sorted_lookup_adjacent (R : relation CodeAndName) (l : list CodeAndName) :
  Sorted R l →
  ∀ i : nat, (0 < i < length l)%nat → R (l !!! (i - 1)%nat) (l !!! i).
Proof.
  induction 1 as [|x l Hs IH Hhd]; intros i Hi; simpl in Hi; [lia |].
  destruct i as [|[|i]]; [lia | |].
  - destruct Hhd; simpl in *; [lia | done].
  - specialize (IH (S i)). simpl in *. rewrite Nat.sub_0_r in IH.
    apply IH. lia.
Qed.

(** [sort.Sort] can keep its promise on every slice, for either sorter: the
    text encoders write a listing for every value. *)
Lemma multibaseSorter_sortable (To_LowerCase : Z → Z) (val : list CodeAndName) :
  ∃ sorted, sort_Sort (multibaseSorter_Less To_LowerCase) val sorted.
Proof.
  pose (R := λ x y : CodeAndName,
               markerOrder To_LowerCase (Code x) (Code y)).
  assert (∀ x y, Decision (R x y)) as Hdec.
  { intros x y. unfold R, markerOrder. apply _. }
  assert (Total R) as Htotal.
  { intros x y. unfold R, markerOrder. lia. }
  exists (merge_sort R val). split.
  - apply merge_sort_Permutation.
  - intros i Hi. apply multibaseSorter_Less_false.
    by apply (Sorted_lookup_adjacent R); [apply Sorted_merge_sort |].
Qed.

Lemma codeAndNameSorter_sortable (val : list CodeAndName) :
  ∃ sorted, sort_Sort codeAndNameSorter_Less val sorted.
Proof.
  pose (R := λ x y : CodeAndName, Code x ≤ Code y).
  assert (∀ x y, Decision (R x y)) as Hdec by (intros x y; unfold R; apply _).
  assert (Total R) as Htotal by (intros x y; unfold R; lia).
  exists (merge_sort R val). split.
  - apply merge_sort_Permutation.
  - intros i Hi. unfold codeAndNameSorter_Less.
    apply bool_decide_eq_false.
    assert (R (merge_sort R val !!! (i - 1)%nat) (merge_sort R val !!! i))
      as Hadj
      by (by apply (Sorted_lookup_adjacent R); [apply Sorted_merge_sort |]).
    unfold R in *. lia.
Qed.

Lemma basesCmd_Text_total (To_LowerCase : Z → Z) (prefixes numeric : bool)
    (val : list CodeAndName) :
  ∃ lines, basesCmd_Text To_LowerCase prefixes numeric val lines.
Proof.
  destruct (multibaseSorter_sortable To_LowerCase val) as [sorted Hs].
  by exists (basesCmd_line prefixes numeric <$> sorted), sorted.
Qed.

Lemma codecsCmd_Text_total (numeric : bool) (val : list CodeAndName) :
  ∃ lines, codecsCmd_Text numeric val lines.
Proof.
  destruct (codeAndNameSorter_sortable val) as [sorted Hs].
  by exists (codecsCmd_line numeric <$> sorted), sorted.
Qed.




(** [hashesCmd] emits the entries visited whose code is acceptable, in the
    order of the visit. *)
Lemma hashesCmd_Run_filter (IsGoodHash : Z → bool) (order : list (Z * string)) :
  hashesCmd_Run IsGoodHash order
  = (λ kv, {| Code := int kv.1; Name := kv.2 |})
      <$> filter (λ kv, IsGoodHash kv.1 = true) order.
Proof.
  unfold hashesCmd_Run.
  induction order as [|[code name] order IH] using rev_ind; [done |].
  rewrite foldl_snoc, filter_app, fmap_app, IH.
  destruct (IsGoodHash code) eqn:Hgood; simpl.
  - by rewrite filter_cons_True.
  - rewrite filter_cons_False by (simpl; congruence). simpl.
    by rewrite app_nil_r.
Qed.

(** C7: the listing of the hash functions holds an entry for every entry of
    the table whose code the predicate accepts, and no other entry: every
    line of the listing comes from an entry of the table with an accepted
    code (so that, the codes of the table being in the range of [int], the
    predicate accepts the code of every line), and there are as many lines
    as accepted entries. *)
Theorem hashes_listing_only_good_hashes
    (IsGoodHash : Z → bool) (Codes : gmap Z string)
    (order : list (Z * string)) (numeric : bool) (lines : list (list Cell)) :
  rangeOrder Codes order →
  codecsCmd_Text numeric (hashesCmd_Run IsGoodHash order) lines →
  ∃ sorted,
    lines = codecsCmd_line numeric <$> sorted ∧
    (∀ code name, Codes !! code = Some name → IsGoodHash code = true →
       {| Code := int code; Name := name |} ∈ sorted) ∧
    (∀ v, v ∈ sorted →
       ∃ code, Codes !! code = Some (Name v) ∧ IsGoodHash code = true ∧
               Code v = int code) ∧
    ((∀ code, is_Some (Codes !! code) → int code = code) →
       ∀ v, v ∈ sorted → IsGoodHash (Code v) = true) ∧
    length lines
    = length (filter (λ kv, IsGoodHash kv.1 = true) (map_to_list Codes)).
Proof.
  intros Horder (sorted & [Hperm _] & ->). unfold rangeOrder in Horder.
  rewrite hashesCmd_Run_filter, Horder in Hperm.
  assert (∀ v, v ∈ sorted ↔
            ∃ code, Codes !! code = Some (Name v) ∧ IsGoodHash code = true ∧
                    Code v = int code) as Hin.
  { intros v. rewrite Hperm, list_elem_of_fmap. split.
    - intros ([code name] & -> & [Hgood Hkv]%list_elem_of_filter).
      apply elem_of_map_to_list in Hkv. by exists code.
    - intros (code & Hname & Hgood & Hcode). exists (code, Name v).
      split; [by destruct v; simpl in *; subst |].
      apply list_elem_of_filter. split; [done |].
      by apply elem_of_map_to_list. }
  exists sorted. split_and!.
  - done.
  - intros code name Hname Hgood. apply Hin. by exists code.
  - intros v Hv. by apply Hin.
  - intros Hint v Hv. apply Hin in Hv as (code & Hname & Hgood & ->).
    by rewrite Hint.
  - by rewrite length_fmap, Hperm, length_fmap.
Qed.

(** The four hash functions of the stand-ins, two of them acceptable. *)
Lemma hashes_listing_only_good_hashes_witness :
  rangeOrder Sample.Codes Sample.Codes_order ∧
  codecsCmd_Text true (hashesCmd_Run Sample.IsGoodHash Sample.Codes_order)
    Sample.hashes_lines ∧
  ∃ sorted,
    Sample.hashes_lines = codecsCmd_line true <$> sorted ∧
    (∀ code name, Sample.Codes !! code = Some name →
       Sample.IsGoodHash code = true →
       {| Code := int code; Name := name |} ∈ sorted) ∧
    (∀ v, v ∈ sorted →
       ∃ code, Sample.Codes !! code = Some (Name v) ∧
               Sample.IsGoodHash code = true ∧ Code v = int code) ∧
    ((∀ code, is_Some (Sample.Codes !! code) → int code = code) →
       ∀ v, v ∈ sorted → Sample.IsGoodHash (Code v) = true) ∧
    length Sample.hashes_lines
    = length (filter (λ kv, Sample.IsGoodHash kv.1 = true)
                (map_to_list Sample.Codes)).
Proof.
  assert (rangeOrder Sample.Codes Sample.Codes_order) as H1.
  { unfold rangeOrder. apply (bool_decide_unpack _). vm_compute. exact I. }
  assert (codecsCmd_Text true
            (hashesCmd_Run Sample.IsGoodHash Sample.Codes_order)
            Sample.hashes_lines) as H2.
  { exists [{| Code := 18; Name := "sha2-256" |};
            {| Code := 19; Name := "sha2-512" |}].
    split; [split | reflexivity].
    - apply (bool_decide_unpack _). vm_compute. exact I.
    - intros i Hi. destruct i as [|[|[|i]]]; simpl in Hi; try lia;
        reflexivity. }
  split; [exact H1 |]. split; [exact H2 |].
  exact (hashes_listing_only_good_hashes Sample.IsGoodHash Sample.Codes
           Sample.Codes_order true Sample.hashes_lines H1 H2).
Defined.

(** ** Properties of [urlstore add] *)

Lemma optBool_true (req : Request) (name : string) :
  optBool req name = true ↔ Options req !! name = Some (OptBool true).
Proof.
  unfold optBool. destruct (Options req !! name) as [[s|[|]]|]; split;
    intros; simplify_eq; done.
Qed.

Section UrlStoreFacts.

Variables Environment IpfsNode Config DAGService : Type.
Variables HttpRequest HttpBody Splitter Prefix DagBuilderHelper IpldNode : Type.
Variable trickleOptionName : string.
Variable GetNode : Environment → result IpfsNode.
Variable IsURL : string → bool.
Variable Repo_Config : IpfsNode → result Config.
Variable UrlstoreEnabled : Config → bool.
Variable ErrUrlstoreNotEnabled : error.
Variable DAG : IpfsNode → DAGService.
Variable http_NewRequest : string → string → result HttpRequest.
Variable http_Do : HttpRequest → result (Response HttpBody).
Variable StatusOK : Z.
Variable NewSizeSplitter : HttpBody → Z → Splitter.
Variable DefaultBlockSize : Z.
Variable NewPrefixV1 : Z → Z → Prefix.
Variable DefaultLinksPerBlock : Z.
Variable DagBuilderParams_New :
  DagBuilderParams DAGService Prefix → Splitter → DagBuilderHelper.
Variable callImporter : Layout → DagBuilderHelper → result IpldNode.
Variable Cid_String : IpldNode → string.
Variable expectedCode200 : Z → string.
Variable EmitOnce : BlockStat → option error.

Local Abbreviation Run :=
  (urlAdd_Run Environment IpfsNode Config DAGService HttpRequest HttpBody
     Splitter Prefix DagBuilderHelper IpldNode trickleOptionName GetNode IsURL
     Repo_Config UrlstoreEnabled ErrUrlstoreNotEnabled DAG http_NewRequest
     http_Do StatusOK NewSizeSplitter DefaultBlockSize NewPrefixV1
     DefaultLinksPerBlock DagBuilderParams_New callImporter Cid_String
     expectedCode200 EmitOnce).

(** C8: a run of [urlstore add] that passes its checks (the node is there,
    the argument has the syntax of a URL, the configuration enables the
    urlstore, the GET request for the URL is built and answered with the
    status [StatusOK]) invokes the importer, once: with the trickle layout
    exactly when the trickle option of the request is the boolean true, and
    with the balanced layout otherwise.  The builder it is invoked on is made
    from parameters that are fixed but for the node and the URL (raw leaves,
    the default number of links per block, no copy, CIDs of version 1 with
    dag-pb and sha2-256) and from a splitter of the default block size over
    the body of the response to that request; it does not depend on the
    options of the request.  No run invokes the importer more than once, or
    in another way. *)
Theorem urlAdd_selects_layout_by_trickle_option (req : Request) (env : Environment) :
  (∀ url n cfg hreq hres,
     head (Arguments_ req) = Some url → GetNode env = Ok n →
     IsURL url = true → Repo_Config n = Ok cfg → UrlstoreEnabled cfg = true →
     http_NewRequest "GET" url = Ok hreq → http_Do hreq = Ok hres →
     StatusCode _ hres = StatusOK →
     ∃ run call,
       Run req env = Some run ∧ importerCalls _ run = [call] ∧
       (Options req !! trickleOptionName = Some (OptBool true) →
          callLayout _ call = trickle_Layout) ∧
       (Options req !! trickleOptionName ≠ Some (OptBool true) →
          callLayout _ call = balanced_Layout) ∧
       callBuilder _ call
       = DagBuilderParams_New
           {| Dagserv := DAG n;
              RawLeaves := true;
              Maxlinks := DefaultLinksPerBlock;
              NoCopy := true;
              CidBuilder := NewPrefixV1 DagProtobuf SHA2_256;
              URL := url |}
           (NewSizeSplitter (Body _ hres) DefaultBlockSize)) ∧
  (∀ run call,
     Run req env = Some run → call ∈ importerCalls _ run →
     (callLayout _ call = trickle_Layout ↔
        Options req !! trickleOptionName = Some (OptBool true)) ∧
     (callLayout _ call = balanced_Layout ↔
        Options req !! trickleOptionName ≠ Some (OptBool true)) ∧
     ∃ url n hreq hres,
       head (Arguments_ req) = Some url ∧ GetNode env = Ok n ∧
       http_NewRequest "GET" url = Ok hreq ∧ http_Do hreq = Ok hres ∧
       callBuilder _ call
       = DagBuilderParams_New
           {| Dagserv := DAG n;
              RawLeaves := true;
              Maxlinks := DefaultLinksPerBlock;
              NoCopy := true;
              CidBuilder := NewPrefixV1 DagProtobuf SHA2_256;
              URL := url |}
           (NewSizeSplitter (Body _ hres) DefaultBlockSize)) ∧
  (∀ run, Run req env = Some run → (length (importerCalls _ run) ≤ 1)%nat) ∧
  (∀ req', Arguments_ req' = Arguments_ req →
     (λ run, callBuilder _ <$> importerCalls _ run) <$> Run req' env
     = (λ run, callBuilder _ <$> importerCalls _ run) <$> Run req env).
Proof.
  split_and!.
  - intros url n cfg hreq hres Hurl Hn Hsyn Hcfg Hen Hreq Hres Hst.
    unfold urlAdd_Run.
    destruct (Arguments_ req) as [|url' args]; [done |].
    injection Hurl as ->.
    rewrite Hn, Hsyn. simpl. rewrite Hcfg, Hen. simpl. rewrite Hreq, Hres.
    rewrite bool_decide_eq_false_2 by (by intros ?).
    destruct (optBool req trickleOptionName) eqn:Hopt;
      destruct (callImporter _ _); eexists _, _;
      (split; [reflexivity |]); (split; [reflexivity |]); simpl;
      split_and!; try done; intros Hopt';
      try apply optBool_true in Hopt; try apply optBool_true in Hopt';
      congruence.
  - intros run call Hrun Hcall. unfold urlAdd_Run in Hrun.
    destruct (Arguments_ req) as [|url args]; [done |].
    injection Hrun as <-.
    destruct (GetNode env) as [n|?]; [| by apply elem_of_nil in Hcall].
    destruct (IsURL url); [| by apply elem_of_nil in Hcall].
    destruct (Repo_Config n) as [cfg|?]; [| by apply elem_of_nil in Hcall].
    destruct (UrlstoreEnabled cfg); [| by apply elem_of_nil in Hcall].
    destruct (http_NewRequest "GET" url) as [hreq|?] eqn:Hreq;
      [| by apply elem_of_nil in Hcall].
    destruct (http_Do hreq) as [hres|?] eqn:Hres;
      [| by apply elem_of_nil in Hcall].
    simpl in Hcall. case_bool_decide; [by apply elem_of_nil in Hcall |].
    rewrite <- optBool_true.
    assert (call =
      {| callLayout := if optBool req trickleOptionName
                       then trickle_Layout else balanced_Layout;
         callBuilder := DagBuilderParams_New
                          (urlAdd_dbp _ _ _ DAG NewPrefixV1 DefaultLinksPerBlock n url)
                          (NewSizeSplitter (Body _ hres) DefaultBlockSize) |})
      as ->.
    { destruct (callImporter _ _); simpl in Hcall;
        by apply list_elem_of_singleton in Hcall. }
    simpl. split_and!.
    + destruct (optBool req trickleOptionName); split; done.
    + destruct (optBool req trickleOptionName); split; done.
    + by exists url, n, hreq, hres.
  - intros run Hrun. unfold urlAdd_Run in Hrun.
    destruct (Arguments_ req) as [|url args]; [done |].
    injection Hrun as <-.
    repeat (case_match; simpl; try lia).
  - intros req' Hargs. unfold urlAdd_Run. rewrite Hargs.
    destruct (Arguments_ req) as [|url args]; [done |]. simpl. f_equal.
    repeat (case_match; simpl; try done).
Qed.

End UrlStoreFacts.

(** On the stand-ins every check passes: a request with the trickle option
    set invokes the importer once, with the trickle layout, on the builder
    made from the fixed parameters and the body of the response. *)
Lemma urlAdd_selects_layout_by_trickle_option_witness :
  ∃ run call,
    Sample.urlAdd {| Arguments_ := ["http://example.com/file"];
                     Options := {["trickle" := OptBool true]} |} = Some run ∧
    importerCalls _ run = [call] ∧
    callLayout _ call = trickle_Layout ∧
    callBuilder _ call
    = ({| Dagserv := (); RawLeaves := true; Maxlinks := 174; NoCopy := true;
          CidBuilder := (DagProtobuf, SHA2_256);
          URL := "http://example.com/file" |},
       ("http://example.com/file", 262144)).
Proof.
  destruct
    (proj1
       (urlAdd_selects_layout_by_trickle_option
          unit unit bool unit string string (string * Z) (Z * Z)
          (DagBuilderParams unit (Z * Z) * (string * Z)) string
          "trickle"
          (λ _, Ok ())
          (λ url, bool_decide (url ≠ ""))
          (λ _, Ok true)
          (λ cfg, cfg)
          (Errorf "urlstore not enabled")
          (λ _, ())
          (λ _ url, Ok url)
          (λ hreq, Ok {| StatusCode := 200; Body := hreq; ContentLength := 5 |})
          200
          (λ body size, (body, size))
          262144
          (λ codec mhType, (codec, mhType))
          174
          (λ dbp chk, (dbp, chk))
          (λ layout _, Ok match layout with
                          | balanced_Layout => "balanced"
                          | trickle_Layout => "trickle"
                          end)
          (λ root, root)
          (λ _, "expected code 200")
          (λ _, None)
          {| Arguments_ := ["http://example.com/file"];
             Options := {["trickle" := OptBool true]} |} ())
       "http://example.com/file" () true "http://example.com/file"
       {| StatusCode := 200; Body := "http://example.com/file";
          ContentLength := 5 |}
       ltac:(reflexivity) ltac:(reflexivity) ltac:(reflexivity)
       ltac:(reflexivity) ltac:(reflexivity) ltac:(reflexivity)
       ltac:(reflexivity) ltac:(reflexivity))
    as (run & call & Hrun & Hcalls & Htrickle & _ & Hbuilder).
  exists run, call. split_and!.
  - exact Hrun.
  - exact Hcalls.
  - apply Htrickle. reflexivity.
  - exact Hbuilder.
Defined.

(** On the stand-ins, where every check passes, a request with the trickle
    option set reaches the importer with the trickle layout, and a request
    without it reaches the importer with the balanced layout. *)
Lemma urlAdd_sample_runs :
  (λ run, callLayout _ <$> importerCalls _ run)
    <$> Sample.urlAdd {| Arguments_ := ["http://example.com/file"];
                         Options := {["trickle" := OptBool true]} |}
  = Some [trickle_Layout] ∧
  (λ run, callLayout _ <$> importerCalls _ run)
    <$> Sample.urlAdd {| Arguments_ := ["http://example.com/file"];
                         Options := ∅ |}
  = Some [balanced_Layout].
Proof. split; reflexivity. Qed.

(** ** More on the batch loop *)

Section BatchLoop.

Variable Decode : string → result Cid.
Variable ExtractEncoding : string → Z * option error.
Variable Format : string → Z → Cid → string * option error.

Local Abbreviation loop := (emitCids_loop Decode ExtractEncoding Format).
Local Abbreviation run := (emitCids Decode ExtractEncoding Format).

Lemma emitCids_loop_decode_failed opts cidStr e args resp :
  Decode cidStr = Err e →
  loop (cidStr :: args) opts resp
  = loop args opts
      (resp ++ [{| CidStr := cidStr; Formatted := ""; ErrorMsg := Error e |}]).
Proof. intros H. cbn [emitCids_loop]. by rewrite H. Qed.

Lemma emitCids_loop_convert_failed opts cidStr c e args resp :
  Decode cidStr = Ok c → convert opts c = Err e →
  loop (cidStr :: args) opts resp
  = loop args opts
      (resp ++ [{| CidStr := cidStr; Formatted := ""; ErrorMsg := Error e |}]).
Proof.
  intros H1 H2. cbn [emitCids_loop]. rewrite H1.
  unfold convert in H2. by rewrite H2.
Qed.

Lemma emitCids_loop_rendered opts cidStr c str err args resp :
  rendersAs Decode opts cidStr c →
  Format (fmtStr opts) (targetBase ExtractEncoding opts cidStr) c = (str, err) →
  isFormatStringErr err = false →
  loop (cidStr :: args) opts resp = loop args opts (emit cidStr str err resp).
Proof.
  intros (c0 & H1 & H2) H3 H4. cbn [emitCids_loop]. rewrite H1.
  unfold convert in H2. rewrite H2. unfold targetBase in H3. rewrite H3.
  by rewrite H4.
Qed.

(** A batch whose inputs all fail before rendering returns no error and
    emits their failure records. *)
Lemma emitCids_loop_all_failed opts args rs resp :
  Forall2 (failedItem Decode opts) args rs →
  loop args opts resp = (None, resp ++ rs).
Proof.
  intros H. revert resp.
  induction H as [|cidStr r args rs Hr _ IH]; intros resp.
  - simpl. by rewrite app_nil_r.
  - destruct Hr as [(e & Hd & ->)|(c & e & Hd & Hc & ->)].
    + rewrite (emitCids_loop_decode_failed _ _ _ _ _ Hd), IH.
      by rewrite <- app_assoc.
    + rewrite (emitCids_loop_convert_failed _ _ _ _ _ _ Hd Hc), IH.
      by rewrite <- app_assoc.
Qed.

(** A batch whose inputs all decode, convert and render without an error
    returns no error and emits their texts. *)
Lemma emitCids_loop_all_rendered opts args texts resp :
  Forall2 (λ cidStr str,
             ∃ c, rendersAs Decode opts cidStr c ∧
                  Format (fmtStr opts) (targetBase ExtractEncoding opts cidStr) c
                  = (str, None)) args texts →
  loop args opts resp
  = (None,
     resp ++ zip_with (λ cidStr str,
                         {| CidStr := cidStr; Formatted := str; ErrorMsg := "" |})
               args texts).
Proof.
  intros H. revert resp.
  induction H as [|cidStr str args texts (c & Hc & Hf) _ IH]; intros resp.
  - simpl. by rewrite app_nil_r.
  - rewrite (emitCids_loop_rendered _ _ _ _ _ _ _ Hc Hf eq_refl), IH.
    unfold emit, Emit. simpl. by rewrite <- app_assoc.
Qed.

(** X1: a batch over two sequences of inputs one after the other is the
    batch over the first followed, when that one returned no error, by the
    batch over the second on the emitter the first one left; an error of the
    first is the error of the whole and the second is not begun. *)
Theorem emitCids_app (args1 args2 : list string) (options : gmap string OptionValue)
    (opts : cidFormatOpts) (resp : ResponseEmitter) :
  run {| Arguments_ := args1 ++ args2; Options := options |} resp opts
  = match run {| Arguments_ := args1; Options := options |} resp opts with
    | (Some e, resp') => (Some e, resp')
    | (None, resp') =>
        run {| Arguments_ := args2; Options := options |} resp' opts
    end.
Proof.
  unfold emitCids. cbn [Arguments_]. revert resp.
  induction args1 as [|cidStr args1 IH]; intros resp; [done |].
  destruct (emitCids_loop_item Decode ExtractEncoding Format opts cidStr)
    as [(r & _ & Heq)|(e & _ & Heq)].
  - rewrite <- app_comm_cons, !Heq. apply IH.
  - by rewrite <- app_comm_cons, !Heq.
Qed.

(** X2: what a batch returns and emits does not depend on what the emitter
    held before: the error is that of the batch on an empty emitter, and the
    emitter afterwards is the emitter before followed by what that batch
    emits. *)
Theorem emitCids_frame (req : Request) (resp : ResponseEmitter)
    (opts : cidFormatOpts) :
  run req resp opts = ((run req [] opts).1, resp ++ (run req [] opts).2).
Proof.
  unfold emitCids. generalize (Arguments_ req). intros args. revert resp.
  induction args as [|cidStr args IH]; intros resp.
  - simpl. by rewrite app_nil_r.
  - destruct (emitCids_loop_item Decode ExtractEncoding Format opts cidStr)
      as [(r & _ & Heq)|(e & _ & Heq)]; rewrite !Heq.
    + rewrite (IH (resp ++ [r])), (IH ([] ++ [r])). simpl.
      by rewrite <- app_assoc.
    + simpl. by rewrite app_nil_r.
Qed.

(** X3: a batch only adds to the emitter: the emitter afterwards is the
    emitter before followed by the results of the batch.  It never adds more
    results than it has inputs, and it returns no error exactly when it has
    added one result for every input. *)
Theorem emitCids_nil_iff_all_emitted (req : Request) (resp : ResponseEmitter)
    (opts : cidFormatOpts) :
  ∃ rs,
    (run req resp opts).2 = resp ++ rs ∧
    (length rs ≤ length (Arguments_ req))%nat ∧
    ((run req resp opts).1 = None ↔ length rs = length (Arguments_ req)).
Proof.
  unfold emitCids. generalize (Arguments_ req). intros args. revert resp.
  induction args as [|cidStr args IH]; intros resp.
  - exists []. simpl. by rewrite app_nil_r.
  - destruct (emitCids_loop_item Decode ExtractEncoding Format opts cidStr)
      as [(r & _ & Heq)|(e & _ & Heq)]; rewrite Heq.
    + destruct (IH (resp ++ [r])) as (rs & Hrs & Hlen & Hiff).
      exists (r :: rs). split_and!.
      * by rewrite Hrs, <- app_assoc.
      * simpl. lia.
      * rewrite Hiff. simpl. split; lia.
    + exists []. simpl. rewrite app_nil_r. split_and!; [done | lia |].
      split; [done | lia].
Qed.

(** X5: when every input decodes, converts and renders without an error,
    the batch returns no error and emits, for each input in order, the input
    with its rendered text and an empty error message. *)
Theorem emitCids_all_rendered (req : Request) (resp : ResponseEmitter)
    (opts : cidFormatOpts) (texts : list string) :
  Forall2 (λ cidStr str,
             ∃ c, rendersAs Decode opts cidStr c ∧
                  Format (fmtStr opts) (targetBase ExtractEncoding opts cidStr) c
                  = (str, None)) (Arguments_ req) texts →
  run req resp opts
  = (None,
     resp ++ zip_with (λ cidStr str,
                         {| CidStr := cidStr; Formatted := str; ErrorMsg := "" |})
               (Arguments_ req) texts).
Proof. unfold emitCids. apply emitCids_loop_all_rendered. Qed.

End BatchLoop.

(** The two valid identifiers of the stand-ins, with the template "%V". *)
Lemma emitCids_all_rendered_witness :
  let opts := {| fmtStr := "%V"; newBase := -1; verConv := None |} in
  let req := {| Arguments_ := [Sample.v0Text; Sample.v1Text]; Options := ∅ |} in
  Forall2 (λ cidStr str,
             ∃ c, rendersAs Sample.Decode opts cidStr c ∧
                  Sample.Format (fmtStr opts)
                    (targetBase Sample.ExtractEncoding opts cidStr) c
                  = (str, None)) (Arguments_ req) ["0"; "1"] ∧
  emitCids Sample.Decode Sample.ExtractEncoding Sample.Format req [] opts
  = (None,
     [] ++ zip_with (λ cidStr str,
                       {| CidStr := cidStr; Formatted := str; ErrorMsg := "" |})
             (Arguments_ req) ["0"; "1"]).
Proof.
  assert (Forall2 (λ cidStr str,
             ∃ c, rendersAs Sample.Decode
                    {| fmtStr := "%V"; newBase := -1; verConv := None |} cidStr c ∧
                  Sample.Format "%V"
                    (targetBase Sample.ExtractEncoding
                       {| fmtStr := "%V"; newBase := -1; verConv := None |} cidStr) c
                  = (str, None)) [Sample.v0Text; Sample.v1Text] ["0"; "1"]) as H.
  { repeat constructor.
    - exists (NewCidV0 Sample.emptyBlockHash). split; [| reflexivity].
      by exists (NewCidV0 Sample.emptyBlockHash).
    - exists (NewCidV1 85 Sample.rawBlockHash). split; [| reflexivity].
      by exists (NewCidV1 85 Sample.rawBlockHash). }
  split; [exact H |].
  exact (emitCids_all_rendered Sample.Decode Sample.ExtractEncoding Sample.Format
           {| Arguments_ := [Sample.v0Text; Sample.v1Text]; Options := ∅ |} []
           {| fmtStr := "%V"; newBase := -1; verConv := None |} ["0"; "1"] H).
Defined.

(** X4: the batch reads [cid.ExtractEncoding] only when the base asked for
    is -1, and then only the encoding it returns: with an explicit base, or
    with another extraction that returns the same encodings (whatever its
    errors), the batch returns and emits the same. *)
Theorem emitCids_reads_only_extracted_encoding
    (Decode : string → result Cid)
    (ExtractEncoding1 ExtractEncoding2 : string → Z * option error)
    (Format : string → Z → Cid → string * option error)
    (req : Request) (resp : ResponseEmitter) (opts : cidFormatOpts) :
  newBase opts ≠ -1 ∨ (∀ v, (ExtractEncoding1 v).1 = (ExtractEncoding2 v).1) →
  emitCids Decode ExtractEncoding1 Format req resp opts
  = emitCids Decode ExtractEncoding2 Format req resp opts.
Proof.
  intros H. unfold emitCids. generalize (Arguments_ req). intros args.
  revert resp. induction args as [|cidStr args IH]; intros resp; [done |].
  cbn [emitCids_loop].
  assert ((if bool_decide (newBase opts = -1)
           then (ExtractEncoding1 cidStr).1 else newBase opts)
          = (if bool_decide (newBase opts = -1)
             then (ExtractEncoding2 cidStr).1 else newBase opts)) as ->.
  { case_bool_decide; [| done]. destruct H; [done | auto]. }
  destruct (Decode cidStr) as [c|e]; [| apply IH].
  destruct (match verConv opts with Some conv => conv c | None => Ok c end)
    as [c'|e]; [| apply IH].
  destruct (Format _ _ c') as [str err].
  destruct (isFormatStringErr err); [done | apply IH].
Qed.

(** The extraction of the stand-ins and the same without its errors. *)
Lemma emitCids_reads_only_extracted_encoding_witness :
  let opts := {| fmtStr := "%V"; newBase := -1; verConv := None |} in
  let req := {| Arguments_ := ["not-a-cid"; Sample.v0Text]; Options := ∅ |} in
  (newBase opts ≠ -1 ∨
   ∀ v, (Sample.ExtractEncoding v).1 = (Sample.ExtractEncodingNoError v).1) ∧
  emitCids Sample.Decode Sample.ExtractEncoding Sample.Format req [] opts
  = emitCids Sample.Decode Sample.ExtractEncodingNoError Sample.Format req [] opts.
Proof.
  assert (∀ v, (Sample.ExtractEncoding v).1
               = (Sample.ExtractEncodingNoError v).1) as H
    by (intros v; reflexivity).
  split; [by right |].
  exact (emitCids_reads_only_extracted_encoding Sample.Decode
           Sample.ExtractEncoding Sample.ExtractEncodingNoError Sample.Format
           {| Arguments_ := ["not-a-cid"; Sample.v0Text]; Options := ∅ |} []
           {| fmtStr := "%V"; newBase := -1; verConv := None |}
           (or_intror H)).
Defined.

(** ** More on [cid format] and [cid base32] *)

(** X6: [cid format] builds options exactly for a format string with a '%',
    a version that is empty, "0" or "1", and a base that is empty or a name
    [mbase.EncoderByName] knows; the options hold the format string, no
    conversion, [toCidV0] or [toCidV1] according to the version, and -1 for
    an empty base or else the encoding of the encoder. *)
Theorem cidFmtCmd_opts_ok_iff (EncoderByName : string → result Z)
    (req : Request) (opts : cidFormatOpts) :
  cidFmtCmd_opts EncoderByName req = Ok opts ↔
  "%"%char ∈ String.list_ascii_of_string (optString req "f") ∧
  fmtStr opts = optString req "f" ∧
  ((optString req "v" = "" ∧ verConv opts = None) ∨
   (optString req "v" = "0" ∧ verConv opts = Some toCidV0) ∨
   (optString req "v" = "1" ∧ verConv opts = Some toCidV1)) ∧
  ((optString req "b" = "" ∧ newBase opts = -1) ∨
   (optString req "b" ≠ "" ∧
    EncoderByName (optString req "b") = Ok (newBase opts))).
Proof.
  unfold cidFmtCmd_opts. cbv zeta.
  generalize (optString req "f") (optString req "v") (optString req "b").
  intros f v b.
  destruct (decide ("%"%char ∈ String.list_ascii_of_string f)) as [Hin|Hnot].
  - rewrite bool_decide_eq_false_2
      by (intros Hn; by apply IndexByte_none in Hn).
    split.
    + intros H. split; [done |].
      repeat case_decide; try done;
        case_bool_decide; try destruct (EncoderByName _) eqn:?;
        simplify_eq; simpl; naive_solver.
    + intros (_ & Hfmt & Hv & Hb).
      destruct opts as [f' b' v']. simpl in *. subst f'.
      assert ((if bool_decide (b ≠ "") then EncoderByName b else Ok (-1))
              = Ok b') as ->.
      { destruct Hb as [[-> ->]|[Hne ->]]; [done |].
        by rewrite bool_decide_eq_true_2. }
      destruct Hv as [[-> ->]|[[-> ->]|[-> ->]]]; done.
  - rewrite bool_decide_eq_true_2 by (by apply IndexByte_none).
    split; [done | by intros [? _]].
Qed.

(** X7: [cid format] checks its options in the order format string,
    version, base, and emits nothing when one of them is refused: after a
    format string with a '%', a version other than "", "0" and "1" is
    refused with "invalid cid version: " followed by the version and a line
    feed, whatever the base; after a good version, the error of
    [mbase.EncoderByName] on a base that is not empty is returned as it is. *)
Theorem cidFmtCmd_refuses_version_and_base
    (Decode : string → result Cid)
    (ExtractEncoding : string → Z * option error)
    (Format : string → Z → Cid → string * option error)
    (EncoderByName : string → result Z)
    (req : Request) (resp : ResponseEmitter) :
  "%"%char ∈ String.list_ascii_of_string (optString req "f") →
  (optString req "v" ∉ [""; "0"; "1"] →
     cidFmtCmd_Run Decode ExtractEncoding Format EncoderByName req resp
     = (Some (Errorf ("invalid cid version: " +:+ optString req "v" +:+
                      String (ascii_of_nat 10) "")), resp)) ∧
  (∀ e, optString req "v" ∈ [""; "0"; "1"] → optString req "b" ≠ "" →
     EncoderByName (optString req "b") = Err e →
     cidFmtCmd_Run Decode ExtractEncoding Format EncoderByName req resp
     = (Some e, resp)).
Proof.
  intros Hf. unfold cidFmtCmd_Run, cidFmtCmd_opts.
  rewrite bool_decide_eq_false_2
    by (intros Hn; by apply IndexByte_none in Hn).
  split.
  - intros Hv. rewrite !not_elem_of_cons in Hv. destruct Hv as (? & ? & ? & _).
    by repeat case_decide.
  - intros e Hv Hb He. rewrite bool_decide_eq_true_2 by done. rewrite He.
    repeat case_decide; try done.
    rewrite !elem_of_cons in Hv.
    destruct Hv as [?|[?|[?|?%elem_of_nil]]]; done.
Qed.

(** A request for version "2" in base "base99", which the stand-in for
    [mbase.EncoderByName] does not know. *)
Lemma cidFmtCmd_refuses_version_and_base_witness :
  let req := {| Arguments_ := [Sample.v0Text];
                Options := {["f" := OptString "%s"; "v" := OptString "2";
                             "b" := OptString "base99"]} |} in
  "%"%char ∈ String.list_ascii_of_string (optString req "f") ∧
  (optString req "v" ∉ [""; "0"; "1"] →
     cidFmtCmd_Run Sample.Decode Sample.ExtractEncoding Sample.Format
       Sample.EncoderByName req []
     = (Some (Errorf ("invalid cid version: " +:+ optString req "v" +:+
                      String (ascii_of_nat 10) "")), [])) ∧
  (∀ e, optString req "v" ∈ [""; "0"; "1"] → optString req "b" ≠ "" →
     Sample.EncoderByName (optString req "b") = Err e →
     cidFmtCmd_Run Sample.Decode Sample.ExtractEncoding Sample.Format
       Sample.EncoderByName req []
     = (Some e, [])).
Proof.
  assert ("%"%char ∈ String.list_ascii_of_string "%s") as H by (by left).
  split; [exact H |].
  exact (cidFmtCmd_refuses_version_and_base Sample.Decode
           Sample.ExtractEncoding Sample.Format Sample.EncoderByName
           {| Arguments_ := [Sample.v0Text];
              Options := {["f" := OptString "%s"; "v" := OptString "2";
                           "b" := OptString "base99"]} |} [] H).
Defined.

(** X8: when the options of [cid format] pass its checks (the format
    string has a '%', the base is empty or known) and the version is "0", a
    batch of inputs that all decode to identifiers of a codec other than
    dag-pb returns no error and emits, for each input in order, the input
    with an empty text and the message
    "can't convert non-protobuf nodes to cidv0"; rendering is not reached,
    so this holds whatever the renderer does with the format string. *)
Theorem cidFmtCmd_v0_refuses_other_codecs
    (Decode : string → result Cid)
    (ExtractEncoding : string → Z * option error)
    (Format : string → Z → Cid → string * option error)
    (EncoderByName : string → result Z)
    (req : Request) (resp : ResponseEmitter) (opts : cidFormatOpts) :
  cidFmtCmd_opts EncoderByName req = Ok opts →
  optString req "v" = "0" →
  Forall (λ cidStr, ∃ c, Decode cidStr = Ok c ∧ Type_ c ≠ DagProtobuf)
    (Arguments_ req) →
  cidFmtCmd_Run Decode ExtractEncoding Format EncoderByName req resp
  = (None,
     resp ++ ((λ cidStr,
                 {| CidStr := cidStr; Formatted := "";
                    ErrorMsg := "can't convert non-protobuf nodes to cidv0" |})
              <$> Arguments_ req)).
Proof.
  intros Hopts Hv Hargs. unfold cidFmtCmd_Run. rewrite Hopts.
  assert (verConv opts = Some toCidV0) as Hconv.
  { unfold cidFmtCmd_opts in Hopts. rewrite Hv in Hopts.
    cbv zeta in Hopts. case_bool_decide; [done |].
    simpl in Hopts. case_bool_decide; [destruct (EncoderByName _) |];
      by simplify_eq. }
  unfold emitCids. apply emitCids_loop_all_failed.
  induction Hargs as [|cidStr args (c & Hd & Hc) _ IH]; [constructor |].
  rewrite fmap_cons. constructor; [| done].
  right. exists c, (Errorf "can't convert non-protobuf nodes to cidv0").
  split_and!; [done | | done].
  unfold convert. rewrite Hconv. by apply toCidV0_other.
Qed.

(** The raw identifier of the stand-ins, asked for in version 0. *)
Lemma cidFmtCmd_v0_refuses_other_codecs_witness :
  let req := {| Arguments_ := [Sample.v1Text];
                Options := {["f" := OptString "%V"; "v" := OptString "0"]} |} in
  let opts := {| fmtStr := "%V"; newBase := -1; verConv := Some toCidV0 |} in
  cidFmtCmd_opts Sample.EncoderByName req = Ok opts ∧
  optString req "v" = "0" ∧
  Forall (λ cidStr, ∃ c, Sample.Decode cidStr = Ok c ∧ Type_ c ≠ DagProtobuf)
    (Arguments_ req) ∧
  cidFmtCmd_Run Sample.Decode Sample.ExtractEncoding Sample.Format
    Sample.EncoderByName req []
  = (None,
     [] ++ ((λ cidStr,
               {| CidStr := cidStr; Formatted := "";
                  ErrorMsg := "can't convert non-protobuf nodes to cidv0" |})
            <$> Arguments_ req)).
Proof.
  assert (Forall (λ cidStr, ∃ c, Sample.Decode cidStr = Ok c ∧
                                 Type_ c ≠ DagProtobuf) [Sample.v1Text]) as H.
  { repeat constructor. exists (NewCidV1 85 Sample.rawBlockHash).
    split; [reflexivity | by intros [=]]. }
  split; [reflexivity |]. split; [reflexivity |]. split; [exact H |].
  exact (cidFmtCmd_v0_refuses_other_codecs Sample.Decode Sample.ExtractEncoding
           Sample.Format Sample.EncoderByName
           {| Arguments_ := [Sample.v1Text];
              Options := {["f" := OptString "%V"; "v" := OptString "0"]} |} []
           {| fmtStr := "%V"; newBase := -1; verConv := Some toCidV0 |}
           eq_refl eq_refl H).
Defined.

(** X9: [cid base32] handles every input on its own: an input that does
    not decode is recorded with an empty text and the message of the error;
    an input that decodes is rendered as the version 1 identifier with its
    codec and multihash, with the template "%s" and the base [Base32], and
    is recorded with the text and the message (empty for none) that
    rendering returns.  The base of the input is not read and no input fails
    on the version conversion.  When rendering reports no format-string
    error, the command returns no error and emits these records for all the
    inputs, in order. *)
Theorem base32Cmd_renders_v1_in_base32
    (Decode : string → result Cid)
    (ExtractEncoding : string → Z * option error)
    (Format : string → Z → Cid → string * option error)
    (req : Request) (resp : ResponseEmitter) :
  (∀ cidStr c,
     cidStr ∈ Arguments_ req → Decode cidStr = Ok c →
     isFormatStringErr (Format "%s" Base32 (NewCidV1 (Type_ c) (Hash c))).2
     = false) →
  base32Cmd_Run Decode ExtractEncoding Format req resp
  = (None,
     resp ++
     ((λ cidStr,
         match Decode cidStr with
         | Err e => {| CidStr := cidStr; Formatted := ""; ErrorMsg := Error e |}
         | Ok c =>
             {| CidStr := cidStr;
                Formatted :=
                  (Format "%s" Base32 (NewCidV1 (Type_ c) (Hash c))).1;
                ErrorMsg :=
                  match (Format "%s" Base32 (NewCidV1 (Type_ c) (Hash c))).2 with
                  | Some e => Error e
                  | None => ""
                  end |}
         end) <$> Arguments_ req)).
Proof.
  unfold base32Cmd_Run, emitCids. generalize (Arguments_ req).
  intros args. revert resp.
  induction args as [|cidStr args IH]; intros resp Hfmt.
  - simpl. by rewrite app_nil_r.
  - rewrite fmap_cons. destruct (Decode cidStr) as [c|e] eqn:Hd.
    + pose proof (Hfmt cidStr c ltac:(left) Hd) as Hnot.
      destruct (Format "%s" Base32 (NewCidV1 (Type_ c) (Hash c)))
        as [str err] eqn:Hf.
      rewrite (emitCids_loop_rendered Decode ExtractEncoding Format
                 {| fmtStr := "%s"; newBase := Base32; verConv := Some toCidV1 |}
                 cidStr (NewCidV1 (Type_ c) (Hash c)) str err);
        [| by exists c | exact Hf | exact Hnot].
      rewrite IH by (intros s c' Hs; apply Hfmt; by right).
      unfold emit, Emit. simpl. by rewrite <- app_assoc.
    + rewrite (emitCids_loop_decode_failed _ _ _ _ _ _ _ _ Hd).
      rewrite IH by (intros s c' Hs; apply Hfmt; by right).
      by rewrite <- app_assoc.
Qed.

(** An input that does not decode followed by the two identifiers of the
    stand-ins: the version 0 one comes out as a version 1 identifier in
    base32 ('b'). *)
Lemma base32Cmd_renders_v1_in_base32_witness :
  let req := {| Arguments_ := ["not-a-cid"; Sample.v0Text; Sample.v1Text];
                Options := ∅ |} in
  (∀ cidStr c,
     cidStr ∈ Arguments_ req → Sample.Decode cidStr = Ok c →
     isFormatStringErr
       (Sample.FormatText "%s" Base32 (NewCidV1 (Type_ c) (Hash c))).2
     = false) ∧
  base32Cmd_Run Sample.Decode Sample.ExtractEncoding Sample.FormatText req []
  = (None,
     [{| CidStr := "not-a-cid"; Formatted := "";
         ErrorMsg := "selected encoding not supported" |};
      {| CidStr := Sample.v0Text; Formatted := "b1"; ErrorMsg := "" |};
      {| CidStr := Sample.v1Text; Formatted := "b1"; ErrorMsg := "" |}]).
Proof.
  assert (∀ cidStr c,
            cidStr ∈ ["not-a-cid"; Sample.v0Text; Sample.v1Text] →
            Sample.Decode cidStr = Ok c →
            isFormatStringErr
              (Sample.FormatText "%s" Base32 (NewCidV1 (Type_ c) (Hash c))).2
            = false) as H.
  { intros cidStr c _ _. reflexivity. }
  split; [exact H |].
  exact (base32Cmd_renders_v1_in_base32 Sample.Decode Sample.ExtractEncoding
           Sample.FormatText
           {| Arguments_ := ["not-a-cid"; Sample.v0Text; Sample.v1Text];
              Options := ∅ |} [] H).
Defined.

(** X10: converting twice is converting once, for either conversion, and
    the conversion to version 1 does not change whether the conversion to
    version 0 is possible, nor what it gives. *)
Theorem toCid_conversions_compose (c : Cid) :
  (∀ c1, toCidV1 c = Ok c1 → toCidV1 c1 = Ok c1) ∧
  (∀ c0, toCidV0 c = Ok c0 → toCidV0 c0 = Ok c0) ∧
  (∀ c1, toCidV1 c = Ok c1 → toCidV0 c1 = toCidV0 c).
Proof.
  split_and!.
  - by intros c1 [= <-].
  - intros c0. destruct (decide (Type_ c = DagProtobuf)) as [Heq|Hne].
    + rewrite (toCidV0_legacy c Heq). by intros [= <-].
    + by rewrite (toCidV0_other c Hne).
  - intros c1 [= <-]. destruct (decide (Type_ c = DagProtobuf)) as [Heq|Hne].
    + rewrite (toCidV0_legacy c Heq).
      by apply (toCidV0_legacy (NewCidV1 (Type_ c) (Hash c))).
    + rewrite (toCidV0_other c Hne).
      by apply (toCidV0_other (NewCidV1 (Type_ c) (Hash c))).
Qed.

(** ** More on the registry listings *)

Lemma Sorted_mono {A} (R1 R2 : relation A) (l : list A) :
  (∀ x y, R1 x y → R2 x y) → Sorted R1 l → Sorted R2 l.
Proof.
  intros HR Hl. rewrite <- (list_fmap_id l). by apply (Sorted_fmap id R1 R2).
Qed.

Lemma codecsCmd_Run_fmap (order : list (Z * string)) :
  codecsCmd_Run order
  = (λ kv, {| Code := int kv.1; Name := kv.2 |}) <$> order.
Proof. apply basesCmd_Run_fmap. Qed.

(** What [codeAndNameSorter] sorts by. *)
Lemma codeAndName_sorted (data : list CodeAndName) :
  sort_IsSorted codeAndNameSorter_Less data →
  Sorted (λ x y, Code x ≤ Code y) data.
Proof.
  intros H.
  apply (Sorted_mono
           (λ x y, bool_decide (Code y < Code x) = false)).
  - intros x y Hxy. apply bool_decide_eq_false in Hxy. lia.
  - by apply (sort_IsSorted_Sorted (λ x y, bool_decide (Code x < Code y))).
Qed.

(** What [multibaseSorter] sorts by. *)
Lemma multibase_sorted (To_LowerCase : Z → Z) (data : list CodeAndName) :
  sort_IsSorted (multibaseSorter_Less To_LowerCase) data →
  Sorted (λ x y, markerOrder To_LowerCase (Code x) (Code y)) data.
Proof.
  intros H.
  pose (less := λ x y : CodeAndName,
    bool_decide (markerOrder To_LowerCase (Code y) (Code x) → False)).
  apply (Sorted_mono (λ x y, less y x = false)).
  - intros x y. unfold less. rewrite bool_decide_eq_false.
    unfold markerOrder. lia.
  - apply sort_IsSorted_Sorted. intros i Hi. unfold less.
    rewrite bool_decide_eq_false. intros Hn. apply Hn.
    apply multibaseSorter_Less_false. by apply H.
Qed.

(** Entries made from a table whose codes [int] keeps are told apart by
    their codes. *)
Lemma table_entries_code_inj (m : gmap Z string) (x y : CodeAndName) :
  map_Forall (λ code _, int code = code) m →
  x ∈ (λ kv, {| Code := int kv.1; Name := kv.2 |}) <$> map_to_list m →
  y ∈ (λ kv, {| Code := int kv.1; Name := kv.2 |}) <$> map_to_list m →
  Code x = Code y → x = y.
Proof.
  intros Hint ([cx nx] & -> & Hx)%list_elem_of_fmap
              ([cy ny] & -> & Hy)%list_elem_of_fmap. simpl.
  apply elem_of_map_to_list in Hx, Hy.
  rewrite (Hint cx nx Hx), (Hint cy ny Hy). intros ->. congruence.
Qed.

(** Two sorted arrangements of the same entries, told apart by what they
    are sorted by, are the same list. *)
Lemma sorted_listing_unique (R : relation CodeAndName)
    (entries l1 l2 : list CodeAndName) :
  Transitive R →
  (∀ x y, x ∈ entries → y ∈ entries → R x y → R y x → x = y) →
  l1 ≡ₚ entries → l2 ≡ₚ entries → Sorted R l1 → Sorted R l2 → l1 = l2.
Proof.
  intros Htrans Hasym H1 H2 Hs1 Hs2.
  apply (StronglySorted_unique_strong R).
  - intros x y Hx Hy. apply Hasym; [by rewrite <- H1 | by rewrite <- H2].
  - by apply Sorted_StronglySorted.
  - by apply Sorted_StronglySorted.
  - by rewrite H1, H2.
Qed.

(** Checks that a listing of the stand-ins is one the text encoder may
    write, [sorted] being the sorted value. *)
Ltac sample_listing sorted :=
  exists sorted; split;
  [ split;
    [ apply (bool_decide_unpack _); vm_compute; exact I
    | intros i Hi;
      do 8 (try (destruct i as [|i];
                 [first [simpl in Hi; lia | reflexivity] |]));
      simpl in Hi; lia ]
  | reflexivity ].

(** X11: the listing of the codecs holds one line for every entry of the
    table, and the lines are in ascending order of the code. *)
Theorem codecs_listing_sorted_by_code
    (CodecToStr : gmap Z string) (order : list (Z * string)) (numeric : bool)
    (lines : list (list Cell)) :
  rangeOrder CodecToStr order →
  codecsCmd_Text numeric (codecsCmd_Run order) lines →
  ∃ sorted,
    lines = codecsCmd_line numeric <$> sorted ∧
    sorted ≡ₚ (λ kv, {| Code := int kv.1; Name := kv.2 |})
                <$> map_to_list CodecToStr ∧
    ∀ (i j : nat) x y,
      (i < j)%nat → sorted !! i = Some x → sorted !! j = Some y →
      Code x ≤ Code y.
Proof.
  intros Horder (sorted & [Hperm Hsorted] & ->). exists sorted. split_and!.
  - done.
  - rewrite Hperm, codecsCmd_Run_fmap. unfold rangeOrder in Horder.
    by rewrite Horder.
  - apply codeAndName_sorted in Hsorted.
    apply Sorted_StronglySorted in Hsorted; [| intros x y z; lia].
    by apply StronglySorted_lookup.
Qed.

(** The three codecs of the stand-ins. *)
Lemma codecs_listing_sorted_by_code_witness :
  rangeOrder Sample.CodecToStr Sample.CodecToStr_order ∧
  codecsCmd_Text true (codecsCmd_Run Sample.CodecToStr_order)
    Sample.codecs_lines ∧
  ∃ sorted,
    Sample.codecs_lines = codecsCmd_line true <$> sorted ∧
    sorted ≡ₚ (λ kv, {| Code := int kv.1; Name := kv.2 |})
                <$> map_to_list Sample.CodecToStr ∧
    ∀ (i j : nat) x y,
      (i < j)%nat → sorted !! i = Some x → sorted !! j = Some y →
      Code x ≤ Code y.
Proof.
  assert (rangeOrder Sample.CodecToStr Sample.CodecToStr_order) as H1.
  { unfold rangeOrder. apply (bool_decide_unpack _). vm_compute. exact I. }
  assert (codecsCmd_Text true (codecsCmd_Run Sample.CodecToStr_order)
            Sample.codecs_lines) as H2.
  { sample_listing [{| Code := 85; Name := "raw" |};
                    {| Code := 112; Name := "protobuf" |};
                    {| Code := 113; Name := "cbor" |}]. }
  split; [exact H1 |]. split; [exact H2 |].
  exact (codecs_listing_sorted_by_code Sample.CodecToStr
           Sample.CodecToStr_order true Sample.codecs_lines H1 H2).
Defined.

(** X12: the listing of the multibase encodings of a table whose codes
    [int] keeps is the same whatever the order in which the table is visited
    and whatever [sort.Sort] does with elements it may put either way. *)
Theorem bases_listing_deterministic
    (To_LowerCase : Z → Z) (EncodingToStr : gmap Z string)
    (order1 order2 : list (Z * string)) (prefixes numeric : bool)
    (lines1 lines2 : list (list Cell)) :
  map_Forall (λ code _, int code = code) EncodingToStr →
  rangeOrder EncodingToStr order1 → rangeOrder EncodingToStr order2 →
  basesCmd_Text To_LowerCase prefixes numeric (basesCmd_Run order1) lines1 →
  basesCmd_Text To_LowerCase prefixes numeric (basesCmd_Run order2) lines2 →
  lines1 = lines2.
Proof.
  intros Hint Ho1 Ho2 (s1 & [Hp1 Hs1] & ->) (s2 & [Hp2 Hs2] & ->).
  unfold rangeOrder in Ho1, Ho2.
  rewrite basesCmd_Run_fmap, Ho1 in Hp1. rewrite basesCmd_Run_fmap, Ho2 in Hp2.
  f_equal.
  apply (sorted_listing_unique
           (λ x y, markerOrder To_LowerCase (Code x) (Code y))
           ((λ kv, {| Code := int kv.1; Name := kv.2 |})
              <$> map_to_list EncodingToStr)); try done.
  - intros x y z. apply markerOrder_trans.
  - intros x y Hx Hy Hxy Hyx.
    apply (table_entries_code_inj EncodingToStr); try done.
    by apply (markerOrder_antisymm To_LowerCase).
  - by apply multibase_sorted.
  - by apply multibase_sorted.
Qed.

(** The four encodings of the stand-ins, visited in two orders. *)
Lemma bases_listing_deterministic_witness :
  map_Forall (λ code _, int code = code) Sample.EncodingToStr ∧
  rangeOrder Sample.EncodingToStr Sample.EncodingToStr_order ∧
  rangeOrder Sample.EncodingToStr (reverse Sample.EncodingToStr_order) ∧
  basesCmd_Text (λ r, r) true true
    (basesCmd_Run Sample.EncodingToStr_order) Sample.bases_lines ∧
  basesCmd_Text (λ r, r) true true
    (basesCmd_Run (reverse Sample.EncodingToStr_order)) Sample.bases_lines ∧
  Sample.bases_lines = Sample.bases_lines.
Proof.
  assert (map_Forall (λ code _, int code = code) Sample.EncodingToStr) as H0.
  { apply (bool_decide_unpack _). vm_compute. exact I. }
  assert (rangeOrder Sample.EncodingToStr Sample.EncodingToStr_order) as H1.
  { unfold rangeOrder. apply (bool_decide_unpack _). vm_compute. exact I. }
  assert (rangeOrder Sample.EncodingToStr
            (reverse Sample.EncodingToStr_order)) as H2.
  { unfold rangeOrder. apply (bool_decide_unpack _). vm_compute. exact I. }
  assert (basesCmd_Text (λ r, r) true true
            (basesCmd_Run Sample.EncodingToStr_order) Sample.bases_lines) as H3.
  { sample_listing [{| Code := 98; Name := "base32" |};
                    {| Code := 66; Name := "base32upper" |};
                    {| Code := 102; Name := "base16" |};
                    {| Code := 70; Name := "base16upper" |}]. }
  assert (basesCmd_Text (λ r, r) true true
            (basesCmd_Run (reverse Sample.EncodingToStr_order))
            Sample.bases_lines) as H4.
  { sample_listing [{| Code := 98; Name := "base32" |};
                    {| Code := 66; Name := "base32upper" |};
                    {| Code := 102; Name := "base16" |};
                    {| Code := 70; Name := "base16upper" |}]. }
  split; [exact H0 |]. split; [exact H1 |]. split; [exact H2 |].
  split; [exact H3 |]. split; [exact H4 |].
  exact (bases_listing_deterministic (λ r, r) Sample.EncodingToStr
           Sample.EncodingToStr_order (reverse Sample.EncodingToStr_order)
           true true Sample.bases_lines Sample.bases_lines H0 H1 H2 H3 H4).
Defined.

(** X13: the listing of the hash functions of a table whose codes [int]
    keeps is the same whatever the order in which the table is visited. *)
Theorem hashes_listing_deterministic
    (IsGoodHash : Z → bool) (Codes : gmap Z string)
    (order1 order2 : list (Z * string)) (numeric : bool)
    (lines1 lines2 : list (list Cell)) :
  map_Forall (λ code _, int code = code) Codes →
  rangeOrder Codes order1 → rangeOrder Codes order2 →
  codecsCmd_Text numeric (hashesCmd_Run IsGoodHash order1) lines1 →
  codecsCmd_Text numeric (hashesCmd_Run IsGoodHash order2) lines2 →
  lines1 = lines2.
Proof.
  intros Hint Ho1 Ho2 (s1 & [Hp1 Hs1] & ->) (s2 & [Hp2 Hs2] & ->).
  unfold rangeOrder in Ho1, Ho2.
  rewrite hashesCmd_Run_filter, Ho1 in Hp1.
  rewrite hashesCmd_Run_filter, Ho2 in Hp2.
  f_equal.
  apply (sorted_listing_unique (λ x y, Code x ≤ Code y)
           ((λ kv, {| Code := int kv.1; Name := kv.2 |})
              <$> filter (λ kv, IsGoodHash kv.1 = true) (map_to_list Codes)));
    try done.
  - intros x y z. lia.
  - intros x y Hx Hy Hxy Hyx.
    apply (table_entries_code_inj Codes); [done | | | lia].
    + apply list_elem_of_fmap in Hx as (kv & -> & [_ Hkv]%list_elem_of_filter).
      apply list_elem_of_fmap. by exists kv.
    + apply list_elem_of_fmap in Hy as (kv & -> & [_ Hkv]%list_elem_of_filter).
      apply list_elem_of_fmap. by exists kv.
  - by apply codeAndName_sorted.
  - by apply codeAndName_sorted.
Qed.

(** The four hash functions of the stand-ins, visited in two orders. *)
Lemma hashes_listing_deterministic_witness :
  map_Forall (λ code _, int code = code) Sample.Codes ∧
  rangeOrder Sample.Codes Sample.Codes_order ∧
  rangeOrder Sample.Codes (reverse Sample.Codes_order) ∧
  codecsCmd_Text true (hashesCmd_Run Sample.IsGoodHash Sample.Codes_order)
    Sample.hashes_lines ∧
  codecsCmd_Text true
    (hashesCmd_Run Sample.IsGoodHash (reverse Sample.Codes_order))
    Sample.hashes_lines ∧
  Sample.hashes_lines = Sample.hashes_lines.
Proof.
  assert (map_Forall (λ code _, int code = code) Sample.Codes) as H0.
  { apply (bool_decide_unpack _). vm_compute. exact I. }
  assert (rangeOrder Sample.Codes Sample.Codes_order) as H1.
  { unfold rangeOrder. apply (bool_decide_unpack _). vm_compute. exact I. }
  assert (rangeOrder Sample.Codes (reverse Sample.Codes_order)) as H2.
  { unfold rangeOrder. apply (bool_decide_unpack _). vm_compute. exact I. }
  assert (codecsCmd_Text true
            (hashesCmd_Run Sample.IsGoodHash Sample.Codes_order)
            Sample.hashes_lines) as H3.
  { sample_listing [{| Code := 18; Name := "sha2-256" |};
                    {| Code := 19; Name := "sha2-512" |}]. }
  assert (codecsCmd_Text true
            (hashesCmd_Run Sample.IsGoodHash (reverse Sample.Codes_order))
            Sample.hashes_lines) as H4.
  { sample_listing [{| Code := 18; Name := "sha2-256" |};
                    {| Code := 19; Name := "sha2-512" |}]. }
  split; [exact H0 |]. split; [exact H1 |]. split; [exact H2 |].
  split; [exact H3 |]. split; [exact H4 |].
  exact (hashes_listing_deterministic Sample.IsGoodHash Sample.Codes
           Sample.Codes_order (reverse Sample.Codes_order) true
           Sample.hashes_lines Sample.hashes_lines H0 H1 H2 H3 H4).
Defined.

(** X14: the listing of the multibase encodings has one line for every
    entry of the value.  The marker of an entry is written, as the first cell
    of its line, only when markers are asked for and the code is a printable
    ASCII character (32 to 126); when markers are asked for and the code is
    not one, the first cell is empty; when markers are not asked for, the
    line has neither.  The name is the last cell, after the code when codes
    are asked for. *)
Theorem bases_listing_cells
    (To_LowerCase : Z → Z) (prefixes numeric : bool)
    (val : list CodeAndName) (lines : list (list Cell)) :
  basesCmd_Text To_LowerCase prefixes numeric val lines →
  length lines = length val ∧
  ∀ line, line ∈ lines →
    ∃ v, v ∈ val ∧
      line = (if prefixes
              then [if bool_decide (32 ≤ Code v < 127)
                    then CellChar (Code v) else CellEmpty]
              else []) ++
             (if numeric then [CellNum (Code v)] else []) ++
             [CellName (Name v)] ∧
      (∀ c, CellChar c ∈ line → prefixes = true ∧ c = Code v ∧ 32 ≤ c < 127) ∧
      (CellEmpty ∈ line → prefixes = true ∧ ¬ (32 ≤ Code v < 127)).
Proof.
  intros (sorted & [Hperm _] & ->). split.
  { by rewrite length_fmap, Hperm. }
  intros line (v & -> & Hv)%list_elem_of_fmap. exists v.
  split; [by rewrite <- Hperm |].
  unfold basesCmd_line.
  destruct prefixes, numeric; simpl;
    repeat case_bool_decide; simpl; try lia;
    (split; [reflexivity |]); split;
    intros; repeat match goal with
                   | H : _ ∈ _ :: _ |- _ => apply elem_of_cons in H as [H|H]
                   | H : _ ∈ [] |- _ => by apply elem_of_nil in H
                   end; simplify_eq; try done; (split_and!; done || lia).
Qed.

(** The four encodings of the stand-ins, listed with markers and codes. *)
Lemma bases_listing_cells_witness :
  basesCmd_Text (λ r, r) true true
    (basesCmd_Run Sample.EncodingToStr_order) Sample.bases_lines ∧
  length Sample.bases_lines = length (basesCmd_Run Sample.EncodingToStr_order) ∧
  ∀ line, line ∈ Sample.bases_lines →
    ∃ v, v ∈ basesCmd_Run Sample.EncodingToStr_order ∧
      line = (if true
              then [if bool_decide (32 ≤ Code v < 127)
                    then CellChar (Code v) else CellEmpty]
              else []) ++
             (if true then [CellNum (Code v)] else []) ++
             [CellName (Name v)] ∧
      (∀ c, CellChar c ∈ line → true = true ∧ c = Code v ∧ 32 ≤ c < 127) ∧
      (CellEmpty ∈ line → true = true ∧ ¬ (32 ≤ Code v < 127)).
Proof.
  assert (basesCmd_Text (λ r, r) true true
            (basesCmd_Run Sample.EncodingToStr_order) Sample.bases_lines) as H.
  { sample_listing [{| Code := 98; Name := "base32" |};
                    {| Code := 66; Name := "base32upper" |};
                    {| Code := 102; Name := "base16" |};
                    {| Code := 70; Name := "base16upper" |}]. }
  split; [exact H |].
  exact (bases_listing_cells (λ r, r) true true
           (basesCmd_Run Sample.EncodingToStr_order) Sample.bases_lines H).
Defined.

(** X15: [Swap] of either sorter panics exactly when one of the indices is
    out of range; otherwise it exchanges the elements at the two indices and
    leaves the others where they are, so that the slice keeps its length and
    its elements, and a second [Swap] of the same indices restores it. *)
Theorem sorter_Swap_exchanges (data : list CodeAndName) (i j : nat) :
  (multibaseSorter_Swap data i j = None ↔
   (multibaseSorter_Len data ≤ i ∨ multibaseSorter_Len data ≤ j)%nat) ∧
  codeAndNameSorter_Swap data i j = multibaseSorter_Swap data i j ∧
  ∀ data', multibaseSorter_Swap data i j = Some data' →
    data' ≡ₚ data ∧
    multibaseSorter_Len data' = multibaseSorter_Len data ∧
    data' !! i = data !! j ∧ data' !! j = data !! i ∧
    (∀ k : nat, k ≠ i → k ≠ j → data' !! k = data !! k) ∧
    multibaseSorter_Swap data' i j = Some data.
Proof.
  unfold multibaseSorter_Swap, codeAndNameSorter_Swap, multibaseSorter_Len.
  split_and!; [| done |].
  - destruct (data !! i) as [x|] eqn:Hi; destruct (data !! j) as [y|] eqn:Hj.
    + apply lookup_lt_Some in Hi, Hj. split; [done | lia].
    + apply lookup_ge_None in Hj. split; [lia | done].
    + apply lookup_ge_None in Hi. split; [lia | done].
    + apply lookup_ge_None in Hi. split; [lia | done].
  - intros data'. destruct (data !! i) as [x|] eqn:Hi; [| done].
    destruct (data !! j) as [y|] eqn:Hj; [| done]. intros [= <-].
    pose proof (lookup_lt_Some _ _ _ Hi) as Hli.
    pose proof (lookup_lt_Some _ _ _ Hj) as Hlj.
    assert (∀ k : nat,
              <[j:=x]> (<[i:=y]> data) !! k
              = data !! (if decide (k = i) then j
                         else if decide (k = j) then i else k)) as Hlook.
    { intros k. destruct (decide (k = j)) as [->|Hkj].
      - rewrite list_lookup_insert_eq by (by rewrite length_insert).
        destruct (decide (j = i)) as [->|]; congruence.
      - rewrite list_lookup_insert_ne by done.
        destruct (decide (k = i)) as [->|Hki].
        + rewrite list_lookup_insert_eq by done. congruence.
        + by rewrite list_lookup_insert_ne. }
    split_and!.
    + apply Permutation_inj. split; [by rewrite !length_insert |].
      exists (λ k, if decide (k = i) then j
                   else if decide (k = j) then i else k).
      split; [| exact Hlook].
      intros k1 k2. repeat case_decide; congruence.
    + by rewrite !length_insert.
    + rewrite Hlook. by rewrite decide_True.
    + rewrite Hlook. case_decide; [congruence |]. by rewrite decide_True.
    + intros k Hki Hkj. rewrite Hlook. by rewrite !decide_False.
    + assert (<[j:=x]> (<[i:=y]> data) !! i = Some y) as ->.
      { rewrite Hlook. rewrite decide_True by done. done. }
      assert (<[j:=x]> (<[i:=y]> data) !! j = Some x) as ->.
      { rewrite Hlook. case_decide; [congruence |].
        by rewrite decide_True. }
      f_equal. apply list_eq. intros k.
      destruct (decide (k = j)) as [->|Hkj].
      * rewrite list_lookup_insert_eq by (by rewrite !length_insert).
        done.
      * rewrite list_lookup_insert_ne by done.
        destruct (decide (k = i)) as [->|Hki].
        -- rewrite list_lookup_insert_eq by (by rewrite !length_insert). done.
        -- rewrite list_lookup_insert_ne by done. rewrite Hlook.
           by rewrite !decide_False.
Qed.

(** ** More on [urlstore add] *)

Section UrlStoreRuns.

Variables Environment IpfsNode Config DAGService : Type.
Variables HttpRequest HttpBody Splitter Prefix DagBuilderHelper IpldNode : Type.
Variable trickleOptionName : string.
Variable GetNode : Environment → result IpfsNode.
Variable IsURL : string → bool.
Variable Repo_Config : IpfsNode → result Config.
Variable UrlstoreEnabled : Config → bool.
Variable ErrUrlstoreNotEnabled : error.
Variable DAG : IpfsNode → DAGService.
Variable http_NewRequest : string → string → result HttpRequest.
Variable http_Do : HttpRequest → result (Response HttpBody).
Variable StatusOK : Z.
Variable NewSizeSplitter : HttpBody → Z → Splitter.
Variable DefaultBlockSize : Z.
Variable NewPrefixV1 : Z → Z → Prefix.
Variable DefaultLinksPerBlock : Z.
Variable DagBuilderParams_New :
  DagBuilderParams DAGService Prefix → Splitter → DagBuilderHelper.
Variable callImporter : Layout → DagBuilderHelper → result IpldNode.
Variable Cid_String : IpldNode → string.
Variable expectedCode200 : Z → string.
Variable EmitOnce : BlockStat → option error.

Local Abbreviation Run :=
  (urlAdd_Run Environment IpfsNode Config DAGService HttpRequest HttpBody
     Splitter Prefix DagBuilderHelper IpldNode trickleOptionName GetNode IsURL
     Repo_Config UrlstoreEnabled ErrUrlstoreNotEnabled DAG http_NewRequest
     http_Do StatusOK NewSizeSplitter DefaultBlockSize NewPrefixV1
     DefaultLinksPerBlock DagBuilderParams_New callImporter Cid_String
     expectedCode200 EmitOnce).

(** X16: [urlstore add] panics only on a request without arguments, and it
    invokes the importer only after every check has passed: the node is
    there, the first argument has the syntax of a URL, the configuration is
    read and enables the urlstore, and the GET request for the URL was built
    and answered with the status [StatusOK]. *)
Theorem urlAdd_imports_only_after_checks (req : Request) (env : Environment) :
  match Run req env with
  | None => Arguments_ req = []
  | Some run =>
      importerCalls _ run ≠ [] →
      ∃ url n cfg hreq hres,
        head (Arguments_ req) = Some url ∧
        GetNode env = Ok n ∧ IsURL url = true ∧
        Repo_Config n = Ok cfg ∧ UrlstoreEnabled cfg = true ∧
        http_NewRequest "GET" url = Ok hreq ∧ http_Do hreq = Ok hres ∧
        StatusCode _ hres = StatusOK
  end.
Proof.
  unfold urlAdd_Run. destruct (Arguments_ req) as [|url args]; [done |].
  destruct (GetNode env) as [n|?]; [| done].
  destruct (IsURL url) eqn:Hurl; [| done]. simpl.
  destruct (Repo_Config n) as [cfg|?] eqn:Hcfg; [| done].
  destruct (UrlstoreEnabled cfg) eqn:Hen; [| done]. simpl.
  destruct (http_NewRequest "GET" url) as [hreq|?] eqn:Hreq; [| done].
  destruct (http_Do hreq) as [hres|?] eqn:Hres; [| done].
  case_bool_decide as Hst; [done |]. intros _.
  exists url, n, cfg, hreq, hres. by split_and!.
Qed.


End UrlStoreRuns.

(** ** The presentation of a result of [cid format] *)

(** X18: for the record of an input that failed to decode or to convert,
    [PostRun] of [cid format] writes nothing and reports the input, a colon
    and the message of the error, provided the message is not empty; the
    record of a failure whose message is empty is presented as a success,
    with an empty line written and nothing reported. *)
Theorem cidFmtCmd_PostRun_of_failed_item
    (Decode : string → result Cid) (opts : cidFormatOpts)
    (cidStr : string) (r : CidFormatRes) :
  failedItem Decode opts cidStr r →
  (ErrorMsg r ≠ "" →
     cidFmtCmd_PostRun r = ("", cidStr +:+ ": " +:+ ErrorMsg r)) ∧
  (ErrorMsg r = "" →
     cidFmtCmd_PostRun r = (String (ascii_of_nat 10) "", "")).
Proof.
  unfold cidFmtCmd_PostRun.
  intros [(e & _ & ->)|(c & e & _ & _ & ->)]; simpl;
    split; intros H; case_bool_decide; done.
Qed.

(** An input that the decoder of the stand-ins refuses. *)
Lemma cidFmtCmd_PostRun_of_failed_item_witness :
  let opts := {| fmtStr := "%s"; newBase := -1; verConv := None |} in
  let r := {| CidStr := "not-a-cid"; Formatted := "";
              ErrorMsg := "selected encoding not supported" |} in
  failedItem Sample.Decode opts "not-a-cid" r ∧
  (ErrorMsg r ≠ "" →
     cidFmtCmd_PostRun r = ("", "not-a-cid" +:+ ": " +:+ ErrorMsg r)) ∧
  (ErrorMsg r = "" →
     cidFmtCmd_PostRun r = (String (ascii_of_nat 10) "", "")).
Proof.
  assert (failedItem Sample.Decode
            {| fmtStr := "%s"; newBase := -1; verConv := None |} "not-a-cid"
            {| CidStr := "not-a-cid"; Formatted := "";
               ErrorMsg := "selected encoding not supported" |}) as H.
  { left. by exists (Errorf "selected encoding not supported"). }
  split; [exact H |].
  exact (cidFmtCmd_PostRun_of_failed_item Sample.Decode
           {| fmtStr := "%s"; newBase := -1; verConv := None |} "not-a-cid"
           {| CidStr := "not-a-cid"; Formatted := "";
              ErrorMsg := "selected encoding not supported" |} H).
Defined.
